(** * SuperTux [video/canvas.cpp]: the deferred draw-request pipeline

    A shallow embedding of [Canvas] (request construction, [render],
    [clear], [apply_translate]) and the properties of its request buffer:
    ordering and filtering of the dispatch, culling of texture draws,
    coordinate translation, alpha composition and buffer life cycle. *)

From Stdlib Require Import ZArith List Bool Lia String Permutation Sorted.
From Stdlib Require Import Floats.SpecFloat.
Import ListNotations.

Set Implicit Arguments.
Local Open Scope Z_scope.

(** ** C++ [float]: IEEE-754 binary32, round to nearest even *)

Module Float32.

Definition float := spec_float.

Definition prec : Z := 24.
Definition emax : Z := 128.

Definition fadd (x y : float) : float := SFadd prec emax x y.
Definition fmul (x y : float) : float := SFmul prec emax x y.
Definition fdiv (x y : float) : float := SFdiv prec emax x y.

(** [x < y], [x > y], [x <= y]: false as soon as one side is a NaN. *)
Definition flt (x y : float) : bool := SFltb x y.
Definition fgt (x y : float) : bool := SFltb y x.
Definition fle (x y : float) : bool := SFleb x y.

(** [static_cast<float>(n)] for an integer [n]. *)
Definition of_int (n : Z) : float := binary_normalize prec emax n 0 false.

Definition zero : float := S754_zero false.
Definition one : float := of_int 1.
Definition two : float := of_int 2.
Definition half : float := fdiv one two.

Lemma fmul_comm (x y : float) : fmul x y = fmul y x.
Proof.
  unfold fmul.
  destruct x as [sx|sx| |sx mx ex], y as [sy|sy| |sy my ey]; simpl;
    try reflexivity; try (now rewrite xorb_comm).
  now rewrite xorb_comm, Pos.mul_comm, Z.add_comm.
Qed.

Lemma CompOpp_cont (p q : positive) :
  Pos.compare_cont Eq q p = CompOpp (Pos.compare_cont Eq p q).
Proof. exact (Pos.compare_antisym p q). Qed.

(** Comparison is antisymmetric: swapping the operands flips the answer. *)
Lemma SFcompare_swap (x y : float) :
  SFcompare y x = option_map CompOpp (SFcompare x y).
Proof.
  destruct x as [sx|sx| |sx mx ex], y as [sy|sy| |sy my ey]; simpl;
    try reflexivity;
    try (destruct sx; reflexivity); try (destruct sy; reflexivity);
    try (destruct sx, sy; reflexivity).
  destruct sx, sy; try reflexivity;
    rewrite (Z.compare_antisym ex ey);
    destruct (ex ?= ey); simpl; try reflexivity;
    rewrite (CompOpp_cont mx my); try reflexivity.
Qed.

Lemma fle_not_fgt (x y : float) : fle x y = true -> fgt x y = false.
Proof.
  unfold fle, fgt, SFleb, SFltb. rewrite (SFcompare_swap x y).
  destruct (SFcompare x y) as [[ | | ]|]; simpl; congruence.
Qed.

Lemma fle_not_flt (x y : float) : fle x y = true -> flt y x = false.
Proof. exact (fle_not_fgt x y). Qed.

Lemma fgt_not_fle (x y : float) : fgt x y = true -> fle x y = false.
Proof.
  intros H. destruct (fle x y) eqn:E; [|reflexivity].
  apply fle_not_fgt in E. congruence.
Qed.

End Float32.

Import Float32.

(** ** Geometry and value types used by the canvas

    [math/vector.hpp], [math/rectf.hpp], [math/rect.hpp], [math/size.hpp],
    [video/color.hpp] and [video/blend.hpp] are used, not defined, by
    [canvas.cpp]; the records below carry the members the canvas reads. *)

Definition fsub (x y : float) : float := SFsub Float32.prec Float32.emax x y.

(** Modelled from the spec: [Vector] is missing from the sources; a
    position is a pair of float coordinates, added component by component. *)
Record Vector := mkVector { x : float; y : float }.

Definition vector_add (a b : Vector) : Vector :=
  mkVector (fadd (x a) (x b)) (fadd (y a) (y b)).

(** Modelled from the spec: [Size] (integer extent) and [Sizef] (float
    extent) are missing from the sources. *)
Record Size := mkSize { size_width : Z; size_height : Z }.
Record Sizef := mkSizef { sizef_width : float; sizef_height : float }.

Definition Sizef_of_Size (s : Size) : Sizef :=
  mkSizef (of_int (size_width s)) (of_int (size_height s)).

(** Modelled from the spec: the integer rectangle [Rect] of the viewport is
    missing from the sources; the canvas reads [left] and [top]. *)
Record Rect := mkRect { left : Z; top : Z; right : Z; bottom : Z }.

(** Modelled from the spec: [Rectf] is missing from the sources; a float
    rectangle is its top-left corner [p1] and bottom-right corner [p2]. *)
Record Rectf := mkRectf { p1 : Vector; p2 : Vector }.

Definition get_left (r : Rectf) : float := x (p1 r).
Definition get_top (r : Rectf) : float := y (p1 r).
Definition get_right (r : Rectf) : float := x (p2 r).
Definition get_bottom (r : Rectf) : float := y (p2 r).
Definition get_width (r : Rectf) : float := fsub (get_right r) (get_left r).
Definition get_height (r : Rectf) : float := fsub (get_bottom r) (get_top r).
Definition get_size (r : Rectf) : Sizef := mkSizef (get_width r) (get_height r).

(** [Rectf(x1, y1, x2, y2)] *)
Definition Rectf_of_coords (x1 y1 x2 y2 : float) : Rectf :=
  mkRectf (mkVector x1 y1) (mkVector x2 y2).

(** [Rectf(p1, size)] *)
Definition Rectf_of_pos_size (p : Vector) (s : Sizef) : Rectf :=
  mkRectf p (mkVector (fadd (x p) (sizef_width s)) (fadd (y p) (sizef_height s))).

Record Color := mkColor { red : float; green : float; blue : float; alpha : float }.

(** [Color(r, g, b)]: the alpha component defaults to 1. *)
Definition Color_rgb (r g b : float) : Color := mkColor r g b one.

Definition set_alpha (c : Color) (a : float) : Color :=
  mkColor (red c) (green c) (blue c) a.

Record Blend := mkBlend { sfactor : Z; dfactor : Z }.

(** A drawing effect is a bit mask. *)
Definition DrawingEffect := Z.

(** Handles of the objects the backend owns. *)
Definition Texture := N.
Definition Font := N.

(** What a [Surface] exposes to the canvas.  A [SurfacePtr] or [FontPtr]
    may be null. *)
Record Surface := mkSurface {
  surface_width : Z;
  surface_height : Z;
  get_flipx : bool;
  get_texture : Texture
}.
Definition SurfacePtr := option Surface.
Definition FontPtr := option Font.

Inductive FontAlignment := ALIGN_LEFT | ALIGN_CENTER | ALIGN_RIGHT.

(** The gradient direction is an enumeration the canvas only stores. *)
Definition GradientDirection := Z.

(** ** Drawing requests *)

Inductive RequestType :=
  TEXTURE | GRADIENT | TEXT | FILLRECT | INVERSEELLIPSE | LINE | TRIANGLE | GETLIGHT.

Record TextureRequest := mkTextureRequest {
  srcrect : Rectf;
  dstrect : Rectf;
  texture : Texture
}.

Record TextRequest := mkTextRequest {
  text_pos : Vector;
  font : FontPtr;
  text : string;
  alignment : FontAlignment
}.

Record GradientRequest := mkGradientRequest {
  gradient_top : Color;
  gradient_bottom : Color;
  direction : GradientDirection;
  region : Rectf
}.

Record FillRectRequest := mkFillRectRequest {
  fillrect_pos : Vector;
  fillrect_size : Vector;
  fillrect_color : Color;
  radius : float
}.

Record InverseEllipseRequest := mkInverseEllipseRequest {
  ellipse_pos : Vector;
  ellipse_size : Vector;
  ellipse_color : Color
}.

Record LineRequest := mkLineRequest {
  line_pos : Vector;
  dest_pos : Vector;
  line_color : Color
}.

Record TriangleRequest := mkTriangleRequest {
  pos1 : Vector;
  pos2 : Vector;
  pos3 : Vector;
  triangle_color : Color
}.

(** The payload classes derived from [DrawingRequestData]. *)
Inductive DrawingRequestData :=
| TextureData (d : TextureRequest)
| TextData (d : TextRequest)
| GradientData (d : GradientRequest)
| FillRectData (d : FillRectRequest)
| InverseEllipseData (d : InverseEllipseRequest)
| LineData (d : LineRequest)
| TriangleData (d : TriangleRequest).

(** A pointer into the obstack: the address it holds and the object
    constructed there.  Requests and payloads are written once, before
    the request is pushed, and only read afterwards. *)
Record Ptr (A : Type) := mkPtr { addr : N; deref : A }.

Record DrawingRequest := mkDrawingRequest {
  type : RequestType;
  layer : Z;
  drawing_effect : DrawingEffect;
  request_alpha : float;
  color : Color;
  blend : Blend;
  angle : float;
  request_data : option (Ptr DrawingRequestData)
}.

(** ** The drawing context and the canvas *)

(** The current transform: [apply] is its affine map. *)
Record Transform := mkTransform {
  apply : Vector -> Vector;
  transform_drawing_effect : DrawingEffect;
  transform_alpha : float
}.

Record DrawingContext := mkDrawingContext {
  transform : Transform;
  get_cliprect : Rectf;
  get_viewport : Rect;
  context_width : Z
}.

(** The obstack is a bump allocator: [new(obst) T()] hands out the next
    free address. *)
Record obstack := mkObstack { obst_next : N }.

Definition obstack_new (o : obstack) : N * obstack :=
  (obst_next o, mkObstack (N.succ (obst_next o))).

(** Modelled from the spec: the enumerators of [DrawingTarget] and of
    [Filter] are declared in headers missing from the sources; the code
    names [DrawingTarget::LIGHTMAP], [BELOW_LIGHTMAP] and [ABOVE_LIGHTMAP],
    the spec names the remaining ones Normal and NoFilter. *)
Inductive DrawingTarget := NORMAL | LIGHTMAP.
Inductive Filter := NoFilter | BELOW_LIGHTMAP | ABOVE_LIGHTMAP.

(** [m_context] and [m_obst] are references: the fields hold the current
    state of the objects referred to. *)
Record Canvas := mkCanvas {
  m_target : DrawingTarget;
  m_context : DrawingContext;
  m_obst : obstack;
  m_requests : list (Ptr DrawingRequest)
}.

Definition push_back (c : Canvas) (o : obstack) (r : Ptr DrawingRequest) : Canvas :=
  mkCanvas (m_target c) (m_context c) o (m_requests c ++ [r]).

Definition with_obst (c : Canvas) (o : obstack) : Canvas :=
  mkCanvas (m_target c) (m_context c) o (m_requests c).

Definition with_requests (c : Canvas) (l : list (Ptr DrawingRequest)) : Canvas :=
  mkCanvas (m_target c) (m_context c) (m_obst c) l.

(** [Canvas::Canvas] *)
Definition Canvas_new (target : DrawingTarget) (context : DrawingContext)
    (obst : obstack) : Canvas :=
  mkCanvas target context obst [].

(** ** Results of operations that can stop the program *)

(** A draw operation either returns or trips an [assert]. *)
Inductive outcome (A : Type) :=
| Done (a : A)
| AssertionFailed.
Arguments AssertionFailed {A}.

(** What the backend is asked to do.  The painter methods and
    [Lightmap::get_light] receive the request itself; [Font::draw] receives
    the painter and the fields of the text payload. *)
Inductive Painter := renderer_painter | lightmap_painter.

Inductive BackendCall :=
| painter_draw_texture (p : Painter) (request : DrawingRequest)
| painter_draw_gradient (p : Painter) (request : DrawingRequest)
| font_draw (f : Font) (p : Painter) (text : string) (pos : Vector)
    (alignment : FontAlignment) (effect : DrawingEffect) (color : Color)
    (alpha : float)
| painter_draw_filled_rect (p : Painter) (request : DrawingRequest)
| painter_draw_inverse_ellipse (p : Painter) (request : DrawingRequest)
| painter_draw_line (p : Painter) (request : DrawingRequest)
| painter_draw_triangle (p : Painter) (request : DrawingRequest)
| lightmap_get_light (request : DrawingRequest).

(** The painter a backend call goes through, if any. *)
Definition call_painter (c : BackendCall) : option Painter :=
  match c with
  | painter_draw_texture p _ | painter_draw_gradient p _
  | font_draw _ p _ _ _ _ _ _
  | painter_draw_filled_rect p _ | painter_draw_inverse_ellipse p _
  | painter_draw_line p _ | painter_draw_triangle p _ => Some p
  | lightmap_get_light _ => None
  end.

(** Undefined behaviour [render] can run into: calling through a null
    font, or casting a payload that is not a [TextRequest]. *)
Inductive Fault := NullFontDereference | NotATextRequest.

(** The dispatch monad: the backend calls made so far, each with the
    buffer entry it was made for, and either a value or the fault that
    stopped the pass. *)
Definition Entry : Type := Ptr DrawingRequest * BackendCall.
Definition Dispatch (A : Type) : Type := list Entry * (A + Fault).

Definition ret {A} (a : A) : Dispatch A := ([], inl a).
Definition abort {A} (f : Fault) : Dispatch A := ([], inr f).
Definition emit (e : Entry) : Dispatch unit := ([e], inl tt).
Definition bind {A B} (m : Dispatch A) (k : A -> Dispatch B) : Dispatch B :=
  match m with
  | (log, inl a) => let (log', r) := k a in (log ++ log', r)
  | (log, inr f) => (log, inr f)
  end.

Notation "m ;; k" := (bind m (fun _ => k)) (at level 61, right associativity).

Definition log_of {A} (m : Dispatch A) : list Entry := fst m.
Definition completed {A} (m : Dispatch A) : bool :=
  match snd m with inl _ => true | inr _ => false end.

(** The buffer entries that were dispatched, and the calls made, in order. *)
Definition dispatched {A} (m : Dispatch A) : list (Ptr DrawingRequest) :=
  map fst (log_of m).
Definition calls {A} (m : Dispatch A) : list BackendCall :=
  map snd (log_of m).

(** Destructor calls made by [clear]. *)
Inductive Destruction :=
| destroy_request_data (a : N)
| destroy_request (a : N).

(** ** [std::stable_sort]

    The library routine is specified by its result: a permutation of the
    input, ordered by the comparator, equivalent elements kept in their
    input order.  Insertion from the right is the simplest procedure with
    that result; [stable_sort_unique] below shows the result is determined
    by the specification. *)

Section StableSort.
Variable A : Type.
Variable comp : A -> A -> bool.

Fixpoint insert_sorted (a : A) (l : list A) : list A :=
  match l with
  | [] => [a]
  | b :: l' => if comp b a then b :: insert_sorted a l' else a :: b :: l'
  end.

Fixpoint stable_sort (l : list A) : list A :=
  match l with
  | [] => []
  | a :: l' => insert_sorted a (stable_sort l')
  end.
End StableSort.

(** ** [Canvas] operations *)

Section CanvasOps.

(** Constants and constructors of headers missing from the sources: the
    threshold layer, the horizontal-flip bit, the state of a
    default-constructed [DrawingRequest] and the default [Blend]. *)
Variable LAYER_LIGHTMAP : Z.
Variable HORIZONTAL_FLIP : DrawingEffect.
Variable DrawingRequest_init : DrawingRequest.
Variable Blend_init : Blend.

Definition effect_from_surface (surface : Surface) : DrawingEffect :=
  if get_flipx surface then HORIZONTAL_FLIP else 0.

(** [Canvas::apply_translate] *)
Definition apply_translate (c : Canvas) (pos : Vector) : Vector :=
  vector_add (apply (transform (m_context c)) pos)
             (mkVector (of_int (left (get_viewport (m_context c))))
                       (of_int (top (get_viewport (m_context c))))).

(** [Canvas::clear]: the destructor calls of one buffer entry, payload
    first when there is one. *)
Definition destroy (request : Ptr DrawingRequest) : list Destruction :=
  match request_data (deref request) with
  | Some d => [destroy_request_data (addr d)]
  | None => []
  end ++ [destroy_request (addr request)].

Definition clear (c : Canvas) : Canvas * list Destruction :=
  (with_requests c [], flat_map destroy (m_requests c)).

(** [Canvas::render] *)
Definition layer_less (r1 r2 : Ptr DrawingRequest) : bool :=
  layer (deref r1) <? layer (deref r2).

Definition select_painter (target : DrawingTarget) : Painter :=
  match target with
  | LIGHTMAP => lightmap_painter
  | NORMAL => renderer_painter
  end.

(** The test at the head of the loop body: [true] when the request is
    skipped. *)
Definition filtered_out (filter : Filter) (request : DrawingRequest) : bool :=
  match filter with
  | BELOW_LIGHTMAP => LAYER_LIGHTMAP <=? layer request
  | ABOVE_LIGHTMAP => layer request <=? LAYER_LIGHTMAP
  | NoFilter => false
  end.

(** The [switch] on the request type. *)
Definition dispatch (painter : Painter) (i : Ptr DrawingRequest) : Dispatch unit :=
  let request := deref i in
  match type request with
  | TEXTURE => emit (i, painter_draw_texture painter request)
  | GRADIENT => emit (i, painter_draw_gradient painter request)
  | TEXT =>
      match request_data request with
      | Some {| deref := TextData textrequest |} =>
          match font textrequest with
          | Some f =>
              emit (i, font_draw f painter (text textrequest) (text_pos textrequest)
                         (alignment textrequest) (drawing_effect request)
                         (color request) (request_alpha request))
          | None => abort NullFontDereference
          end
      | _ => abort NotATextRequest
      end
  | FILLRECT => emit (i, painter_draw_filled_rect painter request)
  | INVERSEELLIPSE => emit (i, painter_draw_inverse_ellipse painter request)
  | LINE => emit (i, painter_draw_line painter request)
  | TRIANGLE => emit (i, painter_draw_triangle painter request)
  | GETLIGHT => emit (i, lightmap_get_light request)
  end.

(** The loop over the sorted buffer. *)
Fixpoint dispatch_all (painter : Painter) (filter : Filter)
    (requests : list (Ptr DrawingRequest)) : Dispatch unit :=
  match requests with
  | [] => ret tt
  | i :: rest =>
      if filtered_out filter (deref i)
      then dispatch_all painter filter rest
      else dispatch painter i ;; dispatch_all painter filter rest
  end.

Definition render (c : Canvas) (filter : Filter) : Canvas * Dispatch unit :=
  let c' := with_requests c (stable_sort layer_less (m_requests c)) in
  let painter := select_painter (m_target c') in
  (c', dispatch_all painter filter (m_requests c')).

(** The clip test of [draw_surface]: [true] when the surface is
    discarded. *)
Definition clipped (cliprect : Rectf) (position : Vector) (surface : Surface) : bool :=
  fgt (x position) (get_right cliprect)
  || fgt (y position) (get_bottom cliprect)
  || flt (fadd (x position) (of_int (surface_width surface))) (get_left cliprect)
  || flt (fadd (y position) (of_int (surface_height surface))) (get_top cliprect).

(** [Canvas::draw_surface] (six arguments) *)
Definition draw_surface (surface : SurfacePtr) (position : Vector)
    (angle_ : float) (color_ : Color) (blend_ : Blend) (layer_ : Z)
    (c : Canvas) : outcome Canvas :=
  match surface with
  | None => AssertionFailed
  | Some s =>
      let (request, obst1) := obstack_new (m_obst c) in
      let cliprect := get_cliprect (m_context c) in
      if clipped cliprect position s then Done (with_obst c obst1)
      else
        let (request_data_, obst2) := obstack_new obst1 in
        let data :=
          {| srcrect := Rectf_of_coords zero zero (of_int (surface_width s))
                                        (of_int (surface_height s));
             dstrect := Rectf_of_pos_size (apply_translate c position)
                          (Sizef_of_Size (mkSize (surface_width s) (surface_height s)));
             texture := get_texture s |} in
        Done (push_back c obst2 (mkPtr request
          {| type := TEXTURE;
             layer := layer_;
             drawing_effect :=
               Z.lxor (transform_drawing_effect (transform (m_context c)))
                      (effect_from_surface s);
             request_alpha := transform_alpha (transform (m_context c));
             angle := angle_;
             color := color_;
             blend := blend_;
             request_data := Some (mkPtr request_data_ (TextureData data)) |}))
  end.

(** [Canvas::draw_surface] (three arguments) *)
Definition draw_surface_default (surface : SurfacePtr) (position : Vector)
    (layer_ : Z) (c : Canvas) : outcome Canvas :=
  draw_surface surface position zero (Color_rgb one one one) Blend_init layer_ c.

(** [Canvas::draw_surface_part] *)
Definition draw_surface_part (surface : SurfacePtr) (srcrect_ dstrect_ : Rectf)
    (layer_ : Z) (c : Canvas) : outcome Canvas :=
  match surface with
  | None => AssertionFailed
  | Some s =>
      let (request, obst1) := obstack_new (m_obst c) in
      let (request_data_, obst2) := obstack_new obst1 in
      let data :=
        {| srcrect := Rectf_of_pos_size (apply_translate c (p1 dstrect_))
                                        (get_size srcrect_);
           dstrect := dstrect_;
           texture := get_texture s |} in
      Done (push_back c obst2 (mkPtr request
        {| type := TEXTURE;
           layer := layer_;
           drawing_effect :=
             Z.lxor (transform_drawing_effect (transform (m_context c)))
                    (effect_from_surface s);
           request_alpha := transform_alpha (transform (m_context c));
           angle := angle DrawingRequest_init;
           color := color DrawingRequest_init;
           blend := blend DrawingRequest_init;
           request_data := Some (mkPtr request_data_ (TextureData data)) |}))
  end.

(** The common part of the remaining operations: a request of the given
    type and layer carrying the context's effect and alpha, with the
    given color and payload, is allocated and pushed. *)
Definition enqueue (type_ : RequestType) (layer_ : Z) (color_ : Color)
    (data : DrawingRequestData) (c : Canvas) : Canvas :=
  let (request, obst1) := obstack_new (m_obst c) in
  let (request_data_, obst2) := obstack_new obst1 in
  push_back c obst2 (mkPtr request
    {| type := type_;
       layer := layer_;
       drawing_effect := transform_drawing_effect (transform (m_context c));
       request_alpha := transform_alpha (transform (m_context c));
       angle := angle DrawingRequest_init;
       color := color_;
       blend := blend DrawingRequest_init;
       request_data := Some (mkPtr request_data_ data) |}).

(** [Canvas::draw_text] *)
Definition draw_text (font_ : FontPtr) (text_ : string) (position : Vector)
    (alignment_ : FontAlignment) (layer_ : Z) (color_ : Color) (c : Canvas) : Canvas :=
  enqueue TEXT layer_ color_
    (TextData {| text_pos := apply_translate c position;
                 font := font_;
                 text := text_;
                 alignment := alignment_ |}) c.

(** [Canvas::draw_center_text] *)
Definition draw_center_text (font_ : FontPtr) (text_ : string) (position : Vector)
    (layer_ : Z) (color_ : Color) (c : Canvas) : Canvas :=
  draw_text font_ text_
    (mkVector (fadd (x position) (fdiv (of_int (context_width (m_context c))) two))
              (y position))
    ALIGN_CENTER layer_ color_ c.

(** [Canvas::draw_gradient] *)
Definition draw_gradient (top_ bottom_ : Color) (layer_ : Z)
    (direction_ : GradientDirection) (region_ : Rectf) (c : Canvas) : Canvas :=
  enqueue GRADIENT layer_ (color DrawingRequest_init)
    (GradientData {| gradient_top := top_;
                     gradient_bottom := bottom_;
                     direction := direction_;
                     region := region_ |}) c.

(** [color.alpha * m_context.transform().alpha] stored over the copy of
    the color. *)
Definition payload_color (color_ : Color) (c : Canvas) : Color :=
  set_alpha color_ (fmul (alpha color_) (transform_alpha (transform (m_context c)))).

(** [Canvas::draw_filled_rect] (top-left corner and size) *)
Definition draw_filled_rect (topleft size_ : Vector) (color_ : Color) (layer_ : Z)
    (c : Canvas) : Canvas :=
  enqueue FILLRECT layer_ (color DrawingRequest_init)
    (FillRectData {| fillrect_pos := apply_translate c topleft;
                     fillrect_size := size_;
                     fillrect_color := payload_color color_ c;
                     radius := zero |}) c.

(** [Canvas::draw_filled_rect] (rectangle and corner radius) *)
Definition draw_filled_rect_radius (rect : Rectf) (color_ : Color) (radius_ : float)
    (layer_ : Z) (c : Canvas) : Canvas :=
  enqueue FILLRECT layer_ (color DrawingRequest_init)
    (FillRectData {| fillrect_pos := apply_translate c (p1 rect);
                     fillrect_size := mkVector (get_width rect) (get_height rect);
                     fillrect_color := payload_color color_ c;
                     radius := radius_ |}) c.

(** [Canvas::draw_filled_rect] (rectangle) *)
Definition draw_filled_rect_rect (rect : Rectf) (color_ : Color) (layer_ : Z)
    (c : Canvas) : Canvas :=
  draw_filled_rect_radius rect color_ zero layer_ c.

(** [Canvas::draw_inverse_ellipse] *)
Definition draw_inverse_ellipse (pos size_ : Vector) (color_ : Color) (layer_ : Z)
    (c : Canvas) : Canvas :=
  enqueue INVERSEELLIPSE layer_ (color DrawingRequest_init)
    (InverseEllipseData {| ellipse_pos := apply_translate c pos;
                           ellipse_color := payload_color color_ c;
                           ellipse_size := size_ |}) c.

(** [Canvas::draw_line] *)
Definition draw_line (pos1_ pos2_ : Vector) (color_ : Color) (layer_ : Z)
    (c : Canvas) : Canvas :=
  enqueue LINE layer_ (color DrawingRequest_init)
    (LineData {| line_pos := apply_translate c pos1_;
                 line_color := payload_color color_ c;
                 dest_pos := apply_translate c pos2_ |}) c.

(** [Canvas::draw_triangle] *)
Definition draw_triangle (pos1_ pos2_ pos3_ : Vector) (color_ : Color) (layer_ : Z)
    (c : Canvas) : Canvas :=
  enqueue TRIANGLE layer_ (color DrawingRequest_init)
    (TriangleData {| pos1 := apply_translate c pos1_;
                     pos2 := apply_translate c pos2_;
                     pos3 := apply_translate c pos3_;
                     triangle_color := payload_color color_ c |}) c.

(** ** What a stable sort by an integer key yields *)

Section StableSortFacts.
Variable A : Type.
Variable key : A -> Z.

Let comp (a b : A) : bool := key a <? key b.
Let has_key (k : Z) (a : A) : bool := key a =? k.

Definition sorted_by_key : list A -> Prop :=
  StronglySorted (fun a b => key a <= key b).

Lemma insert_sorted_perm (a : A) (l : list A) :
  Permutation (insert_sorted comp a l) (a :: l).
Proof.
  induction l as [|b l IH]; simpl; [reflexivity|].
  destruct (comp b a); [|reflexivity].
  rewrite IH. apply perm_swap.
Qed.

Lemma stable_sort_perm (l : list A) : Permutation (stable_sort comp l) l.
Proof.
  induction l as [|a l IH]; simpl; [reflexivity|].
  rewrite insert_sorted_perm. now constructor.
Qed.

Lemma insert_sorted_sorted (a : A) (l : list A) :
  sorted_by_key l -> sorted_by_key (insert_sorted comp a l).
Proof.
  unfold sorted_by_key.
  induction 1 as [|b l Hl IH Hb]; simpl.
  - repeat constructor.
  - unfold comp at 1. destruct (Z.ltb_spec (key b) (key a)) as [Hlt|Hge].
    + constructor; [exact IH|].
      rewrite insert_sorted_perm. constructor; [lia|exact Hb].
    + constructor; [now constructor|].
      constructor; [exact Hge|].
      eapply Forall_impl; [|exact Hb]. cbv beta. intros; lia.
Qed.

Lemma stable_sort_sorted (l : list A) : sorted_by_key (stable_sort comp l).
Proof.
  induction l as [|a l IH]; simpl; [constructor|].
  now apply insert_sorted_sorted.
Qed.

(** An element only moves past elements of a strictly smaller key, so
    the elements of one key keep their order. *)
Lemma insert_sorted_stable (k : Z) (a : A) (l : list A) :
  filter (has_key k) (insert_sorted comp a l) = filter (has_key k) (a :: l).
Proof.
  induction l as [|b l IH]; [reflexivity|].
  cbn [insert_sorted]. unfold comp at 1.
  destruct (Z.ltb_spec (key b) (key a)) as [Hlt|Hge]; [|reflexivity].
  cbn [filter] in *. rewrite IH. unfold has_key.
  destruct (Z.eqb_spec (key b) k), (Z.eqb_spec (key a) k); try reflexivity; lia.
Qed.

Lemma stable_sort_stable (k : Z) (l : list A) :
  filter (has_key k) (stable_sort comp l) = filter (has_key k) l.
Proof.
  induction l as [|a l IH]; [reflexivity|].
  cbn [stable_sort]. rewrite insert_sorted_stable. cbn [filter].
  now rewrite IH.
Qed.

Lemma insert_sorted_front (a : A) (l : list A) :
  Forall (fun b => key a <= key b) l -> insert_sorted comp a l = a :: l.
Proof.
  destruct 1 as [|b l Hb _]; [reflexivity|]. simpl. unfold comp.
  destruct (Z.ltb_spec (key b) (key a)); [lia|reflexivity].
Qed.

(** Sorting a sorted buffer leaves it as it is. *)
Lemma stable_sort_sorted_id (l : list A) :
  sorted_by_key l -> stable_sort comp l = l.
Proof.
  induction 1 as [|a l Hl IH Ha]; [reflexivity|].
  simpl. rewrite IH. now apply insert_sorted_front.
Qed.

Lemma sorted_by_key_filter (p : A -> bool) (l : list A) :
  sorted_by_key l -> sorted_by_key (filter p l).
Proof.
  induction 1 as [|a l Hl IH Ha]; simpl; [constructor|].
  destruct (p a); [|exact IH].
  constructor; [exact IH|].
  rewrite Forall_forall in *. intros b Hb.
  apply filter_In in Hb. now apply Ha.
Qed.

Lemma filter_has_key_nil (l : list A) :
  (forall k, filter (has_key k) l = []) -> l = [].
Proof.
  destruct l as [|a l]; [reflexivity|]. intros H.
  specialize (H (key a)). simpl in H. unfold has_key in H.
  rewrite Z.eqb_refl in H. discriminate.
Qed.

(** The specification determines the result: two sorted lists with the
    same elements of each key, in the same order, are equal. *)
Lemma stable_sort_unique (l1 l2 : list A) :
  sorted_by_key l1 -> sorted_by_key l2 ->
  (forall k, filter (has_key k) l1 = filter (has_key k) l2) ->
  l1 = l2.
Proof.
  intros H1. revert l2.
  induction H1 as [|a l1 Hl1 IH Ha]; intros l2 H2 Hk.
  - symmetry. apply filter_has_key_nil. intros k. now rewrite <- Hk.
  - destruct H2 as [|b l2 Hl2 Hb].
    + apply filter_has_key_nil. intros k. now rewrite Hk.
    + assert (Hab : key a = key b).
      { pose proof (Hk (key a)) as Ea. pose proof (Hk (key b)) as Eb.
        cbn [filter] in Ea, Eb. unfold has_key in Ea, Eb.
        rewrite Z.eqb_refl in Ea, Eb.
        destruct (Z.eqb_spec (key b) (key a)) as [|Hne]; [congruence|].
        destruct (Z.eqb_spec (key a) (key b)) as [|_]; [congruence|].
        assert (In a (filter (fun x => key x =? key a) l2))
          by (rewrite <- Ea; now left).
        assert (In b (filter (fun x => key x =? key b) l1))
          by (rewrite Eb; now left).
        rewrite filter_In in *. rewrite Forall_forall in *.
        assert (key b <= key a) by now apply Hb.
        assert (key a <= key b) by now apply Ha.
        lia. }
      assert (a = b /\ forall k, filter (has_key k) l1 = filter (has_key k) l2)
        as [-> Hk'].
      { split.
        - specialize (Hk (key a)). cbn [filter] in Hk. unfold has_key in Hk.
          rewrite <- Hab, Z.eqb_refl in Hk. congruence.
        - intros k. specialize (Hk k). cbn [filter] in Hk. unfold has_key in *.
          rewrite <- Hab in Hk.
          destruct (key a =? k); congruence. }
      f_equal. now apply IH.
Qed.

Lemma filter_swap (p q : A -> bool) (l : list A) :
  filter p (filter q l) = filter q (filter p l).
Proof.
  induction l as [|a l IH]; [reflexivity|]. simpl.
  destruct (p a) eqn:Ep, (q a) eqn:Eq; simpl; rewrite ?Ep, ?Eq, IH; reflexivity.
Qed.

(** Skipping elements after the sort is sorting what is left. *)
Lemma filter_stable_sort (p : A -> bool) (l : list A) :
  filter p (stable_sort comp l) = stable_sort comp (filter p l).
Proof.
  apply stable_sort_unique.
  - apply sorted_by_key_filter, stable_sort_sorted.
  - apply stable_sort_sorted.
  - intros k. rewrite stable_sort_stable.
    rewrite (filter_swap (has_key k) p), (filter_swap (has_key k) p).
    now rewrite stable_sort_stable.
Qed.

End StableSortFacts.

(** ** The dispatch pass *)

Definition request_layer (i : Ptr DrawingRequest) : Z := layer (deref i).

(** A buffer entry passes the filter. *)
Definition survives (filter_ : Filter) (i : Ptr DrawingRequest) : bool :=
  negb (filtered_out filter_ (deref i)).

(** The [switch] can serve the entry: a [TEXT] request carries a text
    payload with a font. *)
Definition dispatchable (i : Ptr DrawingRequest) : bool :=
  match type (deref i) with
  | TEXT =>
      match request_data (deref i) with
      | Some {| deref := TextData textrequest |} =>
          match font textrequest with Some _ => true | None => false end
      | _ => false
      end
  | _ => true
  end.

Lemma dispatch_dispatchable (painter : Painter) (i : Ptr DrawingRequest) :
  dispatchable i = true ->
  exists call, dispatch painter i = ([(i, call)], inl tt).
Proof.
  unfold dispatchable, dispatch, emit, abort.
  destruct (type (deref i)); try (intros _; eexists; reflexivity).
  destruct (request_data (deref i)) as [[a [ | t | | | | | ]]|]; try discriminate.
  destruct (font t); [intros _; eexists; reflexivity | discriminate].
Qed.

Lemma dispatch_not_dispatchable (painter : Painter) (i : Ptr DrawingRequest) :
  dispatchable i = false ->
  exists fault, dispatch painter i = ([], inr fault).
Proof.
  unfold dispatchable, dispatch, emit, abort.
  destruct (type (deref i)); try discriminate.
  destruct (request_data (deref i)) as [[a [ | t | | | | | ]]|];
    try (intros _; eexists; reflexivity).
  destruct (font t); [discriminate | intros _; eexists; reflexivity].
Qed.

Lemma dispatch_all_cons_skip painter filter_ i rest :
  survives filter_ i = false ->
  dispatch_all painter filter_ (i :: rest) = dispatch_all painter filter_ rest.
Proof.
  unfold survives. cbn [dispatch_all].
  destruct (filtered_out filter_ (deref i)); [reflexivity | discriminate].
Qed.

Lemma dispatch_all_cons_keep painter filter_ i rest :
  survives filter_ i = true ->
  dispatch_all painter filter_ (i :: rest)
  = (dispatch painter i ;; dispatch_all painter filter_ rest).
Proof.
  unfold survives. cbn [dispatch_all].
  destruct (filtered_out filter_ (deref i)); [discriminate | reflexivity].
Qed.

(** When every surviving entry can be served, the pass runs to the end
    of the buffer and dispatches the surviving entries, in buffer order. *)
Lemma dispatch_all_complete painter filter_ (l : list (Ptr DrawingRequest)) :
  forallb dispatchable (filter (survives filter_) l) = true ->
  completed (dispatch_all painter filter_ l) = true
  /\ dispatched (dispatch_all painter filter_ l) = filter (survives filter_) l.
Proof.
  induction l as [|i rest IH]; [now split|].
  cbn [filter]. destruct (survives filter_ i) eqn:Es.
  - cbn [forallb]. rewrite andb_true_iff. intros [Hi Hrest].
    rewrite dispatch_all_cons_keep by exact Es.
    destruct (dispatch_dispatchable painter i Hi) as [call ->].
    destruct (IH Hrest) as [Hc Hd].
    unfold completed, dispatched, log_of in *.
    destruct (dispatch_all painter filter_ rest) as [log r].
    cbn in *. split; [exact Hc | now rewrite Hd].
  - intros Hrest. rewrite dispatch_all_cons_skip by exact Es. now apply IH.
Qed.

(** Whatever happens, each logged call was made for a surviving entry of
    the buffer and is what the [switch] does for that entry. *)
Lemma dispatch_all_log painter filter_ (l : list (Ptr DrawingRequest)) i call :
  In (i, call) (log_of (dispatch_all painter filter_ l)) ->
  In i l /\ survives filter_ i = true
  /\ dispatch painter i = ([(i, call)], inl tt).
Proof.
  induction l as [|j rest IH]; [intros []|].
  destruct (survives filter_ j) eqn:Es.
  - rewrite dispatch_all_cons_keep by exact Es.
    destruct (dispatchable j) eqn:Ed.
    + destruct (dispatch_dispatchable painter j Ed) as [cj Hj]. rewrite Hj.
      unfold log_of in *.
      destruct (dispatch_all painter filter_ rest) as [log r]. cbn.
      intros [E|Hin].
      * inversion E; subst. repeat split; [now left | exact Es | exact Hj].
      * destruct (IH Hin) as (? & ? & ?). repeat split; [now right | | ]; assumption.
    + destruct (dispatch_not_dispatchable painter j Ed) as [fault ->].
      intros [].
  - rewrite dispatch_all_cons_skip by exact Es. intros Hin.
    destruct (IH Hin) as (? & ? & ?). repeat split; [now right | | ]; assumption.
Qed.

Lemma render_requests (c : Canvas) (filter_ : Filter) :
  m_requests (fst (render c filter_)) = stable_sort layer_less (m_requests c).
Proof. reflexivity. Qed.

Lemma render_run (c : Canvas) (filter_ : Filter) :
  snd (render c filter_)
  = dispatch_all (select_painter (m_target c)) filter_
      (stable_sort layer_less (m_requests c)).
Proof. reflexivity. Qed.

Lemma filter_forallb (A : Type) (p q : A -> bool) (l : list A) :
  forallb p l = true -> forallb p (filter q l) = true.
Proof.
  rewrite !forallb_forall. intros H a Ha. apply filter_In in Ha. now apply H.
Qed.

Lemma forallb_perm (A : Type) (p : A -> bool) (l l' : list A) :
  Permutation l l' -> forallb p l = true -> forallb p l' = true.
Proof.
  rewrite !forallb_forall. intros HP H a Ha. apply H.
  eapply Permutation_in; [symmetry; exact HP | exact Ha].
Qed.

(** [render] on a buffer whose surviving entries can all be served. *)
Lemma render_dispatch_order_aux (c : Canvas) (filter_ : Filter) :
  forallb dispatchable (filter (survives filter_) (m_requests c)) = true ->
  completed (snd (render c filter_)) = true
  /\ dispatched (snd (render c filter_))
     = filter (survives filter_) (stable_sort layer_less (m_requests c)).
Proof.
  intros Hok. rewrite render_run.
  apply dispatch_all_complete.
  unfold layer_less. rewrite (filter_stable_sort request_layer).
  eapply forallb_perm; [|exact Hok].
  symmetry. apply (stable_sort_perm request_layer).
Qed.

(** A pass that stops early has dispatched an initial segment of the
    surviving entries. *)
Lemma dispatch_all_prefix painter filter_ (l : list (Ptr DrawingRequest)) :
  exists rest,
    filter (survives filter_) l = dispatched (dispatch_all painter filter_ l) ++ rest.
Proof.
  induction l as [|i l [rest IH]]; [now exists []|].
  cbn [filter]. destruct (survives filter_ i) eqn:Es.
  - rewrite dispatch_all_cons_keep by exact Es.
    destruct (dispatchable i) eqn:Ed.
    + destruct (dispatch_dispatchable painter i Ed) as [call ->].
      exists rest. rewrite IH. unfold dispatched, log_of.
      now destruct (dispatch_all painter filter_ l).
    + destruct (dispatch_not_dispatchable painter i Ed) as [fault ->].
      now exists (i :: filter (survives filter_) l).
  - rewrite dispatch_all_cons_skip by exact Es. now exists rest.
Qed.

Lemma StronglySorted_app_l (A : Type) (R : A -> A -> Prop) (l l' : list A) :
  StronglySorted R (l ++ l') -> StronglySorted R l.
Proof.
  induction l as [|a l IH]; [constructor|].
  cbn. intros H. inversion H as [|? ? Hs Hf]; subst.
  constructor; [now apply IH|].
  apply Forall_app in Hf. tauto.
Qed.

(** Claim C1: [render] dispatches surviving requests in non-decreasing
    order of layer, requests of one layer in the order the draw calls
    inserted them: what it dispatches is an initial segment of the
    stable sort by layer of the surviving requests taken in insertion
    order, and the whole of it when every surviving request can be
    served. *)
Theorem render_dispatch_order (c : Canvas) (filter_ : Filter) :
  let run := snd (render c filter_) in
  let surviving := filter (survives filter_) (m_requests c) in
  (exists rest, stable_sort layer_less surviving = dispatched run ++ rest)
  /\ StronglySorted (fun r1 r2 => request_layer r1 <= request_layer r2)
       (dispatched run)
  /\ (forallb dispatchable surviving = true ->
      completed run = true
      /\ dispatched run = stable_sort layer_less surviving
      /\ forall k : Z,
           filter (fun i => request_layer i =? k) (dispatched run)
           = filter (fun i => request_layer i =? k) surviving).
Proof.
  intros run surviving. subst run surviving.
  assert (Hpre : exists rest,
             stable_sort layer_less (filter (survives filter_) (m_requests c))
             = dispatched (snd (render c filter_)) ++ rest).
  { rewrite render_run.
    destruct (dispatch_all_prefix (select_painter (m_target c)) filter_
                (stable_sort layer_less (m_requests c))) as [rest Hrest].
    exists rest. rewrite <- Hrest. unfold layer_less.
    now rewrite (filter_stable_sort request_layer). }
  split; [exact Hpre|]. split.
  - destruct Hpre as [rest Hrest].
    apply StronglySorted_app_l with (l' := rest). rewrite <- Hrest.
    apply (stable_sort_sorted request_layer).
  - intros Hok.
    destruct (render_dispatch_order_aux c filter_ Hok) as [Hc Hd].
    rewrite Hd. unfold layer_less.
    rewrite (filter_stable_sort request_layer).
    repeat split.
    + exact Hc.
    + intros k. apply (stable_sort_stable request_layer).
Qed.

Lemma filter_all (A : Type) (l : list A) : filter (fun _ => true) l = l.
Proof. induction l as [|a l IH]; simpl; congruence. Qed.

Lemma survives_below (i : Ptr DrawingRequest) :
  survives BELOW_LIGHTMAP i = (request_layer i <? LAYER_LIGHTMAP).
Proof. unfold survives, filtered_out, request_layer. now rewrite Z.ltb_antisym. Qed.

Lemma survives_above (i : Ptr DrawingRequest) :
  survives ABOVE_LIGHTMAP i = (LAYER_LIGHTMAP <? request_layer i).
Proof. unfold survives, filtered_out, request_layer. now rewrite Z.ltb_antisym. Qed.

Lemma dispatched_render (c : Canvas) (filter_ : Filter) :
  forallb dispatchable (m_requests c) = true ->
  dispatched (snd (render c filter_))
  = filter (survives filter_) (stable_sort layer_less (m_requests c)).
Proof.
  intros Hok.
  destruct (render_dispatch_order_aux c filter_) as [_ H]; [|exact H].
  now apply filter_forallb.
Qed.

Lemma In_stable_sort (l : list (Ptr DrawingRequest)) (i : Ptr DrawingRequest) :
  In i (stable_sort layer_less l) <-> In i l.
Proof.
  pose proof (stable_sort_perm request_layer l) as HP.
  split; apply Permutation_in; [exact HP | symmetry; exact HP].
Qed.

(** Claim C3: with [T = LAYER_LIGHTMAP], [render] under
    [BELOW_LIGHTMAP] dispatches exactly the buffered requests of layer
    [< T], under [ABOVE_LIGHTMAP] exactly those of layer [> T], and with
    no filter all of them; a request of layer [T] is dispatched under
    neither threshold filter. *)
Theorem render_filter_partition (c : Canvas) :
  forallb dispatchable (m_requests c) = true ->
  let sorted := stable_sort layer_less (m_requests c) in
  let below := dispatched (snd (render c BELOW_LIGHTMAP)) in
  let above := dispatched (snd (render c ABOVE_LIGHTMAP)) in
  let all := dispatched (snd (render c NoFilter)) in
  below = filter (fun i => request_layer i <? LAYER_LIGHTMAP) sorted
  /\ above = filter (fun i => LAYER_LIGHTMAP <? request_layer i) sorted
  /\ all = sorted
  /\ (forall i, In i below <-> In i (m_requests c) /\ request_layer i < LAYER_LIGHTMAP)
  /\ (forall i, In i above <-> In i (m_requests c) /\ LAYER_LIGHTMAP < request_layer i)
  /\ (forall i, In i all <-> In i (m_requests c))
  /\ (forall i, request_layer i = LAYER_LIGHTMAP -> ~ In i below /\ ~ In i above).
Proof.
  intros Hok sorted below above all. subst sorted below above all.
  rewrite !dispatched_render by exact Hok.
  rewrite (filter_ext _ _ survives_below), (filter_ext _ _ survives_above).
  change (survives NoFilter) with (fun _ : Ptr DrawingRequest => true).
  rewrite filter_all.
  split; [reflexivity|]. split; [reflexivity|]. split; [reflexivity|].
  split; [|split; [|split]].
  - intros i. rewrite filter_In, In_stable_sort, Z.ltb_lt. reflexivity.
  - intros i. rewrite filter_In, In_stable_sort, Z.ltb_lt. reflexivity.
  - intros i. apply In_stable_sort.
  - intros i Hi.
    split; intros Hin; apply filter_In in Hin; destruct Hin as [_ Hin];
      apply Z.ltb_lt in Hin; lia.
Qed.

(** Claim C7: [render] removes nothing from the request buffer: the
    buffer it leaves holds the same requests (the stable sort of the
    buffer it found), whatever the filter skipped, and a second [render]
    with any filter leaves that buffer as it is and dispatches what it
    would have dispatched from the original buffer. *)
Theorem render_keeps_buffer (c : Canvas) (filter_ : Filter) :
  let c1 := fst (render c filter_) in
  m_requests c1 = stable_sort layer_less (m_requests c)
  /\ Permutation (m_requests c1) (m_requests c)
  /\ List.length (m_requests c1) = List.length (m_requests c)
  /\ (forall i, In i (m_requests c1) <-> In i (m_requests c))
  /\ m_target c1 = m_target c /\ m_context c1 = m_context c /\ m_obst c1 = m_obst c
  /\ forall filter2 : Filter,
       fst (render c1 filter2) = c1
       /\ snd (render c1 filter2) = snd (render c filter2).
Proof.
  intros c1. subst c1.
  assert (HP : Permutation (stable_sort layer_less (m_requests c)) (m_requests c))
    by apply (stable_sort_perm request_layer).
  assert (Hid : stable_sort layer_less (stable_sort layer_less (m_requests c))
                = stable_sort layer_less (m_requests c))
    by (apply (@stable_sort_sorted_id _ request_layer);
        apply (stable_sort_sorted request_layer)).
  split; [reflexivity|]. split; [exact HP|].
  split; [now apply Permutation_length|].
  split; [intros i; apply In_stable_sort|].
  do 3 (split; [reflexivity|]).
  intros filter2. split.
  - unfold render, with_requests. cbn. now rewrite Hid.
  - rewrite !render_run. cbn. now rewrite Hid.
Qed.

(** The address a destructor call is made on. *)
Definition destroyed (d : Destruction) : N :=
  match d with destroy_request_data a | destroy_request a => a end.

(** Claim C9: a [GETLIGHT] request is served by the lightmap's light
    query whatever the canvas target is; every other call [render] makes
    goes through the painter the target selects. *)
Theorem render_get_light (c : Canvas) (filter_ : Filter) :
  (forall i call,
      In (i, call) (log_of (snd (render c filter_))) ->
      match type (deref i) with
      | GETLIGHT => call = lightmap_get_light (deref i)
      | _ => call_painter call = Some (select_painter (m_target c))
      end)
  /\ (forallb dispatchable (filter (survives filter_) (m_requests c)) = true ->
      forall i,
        In i (m_requests c) -> survives filter_ i = true ->
        type (deref i) = GETLIGHT ->
        In (i, lightmap_get_light (deref i)) (log_of (snd (render c filter_)))).
Proof.
  assert (Hlog : forall i call,
      In (i, call) (log_of (snd (render c filter_))) ->
      match type (deref i) with
      | GETLIGHT => call = lightmap_get_light (deref i)
      | _ => call_painter call = Some (select_painter (m_target c))
      end).
  { intros i call Hin. rewrite render_run in Hin.
    apply dispatch_all_log in Hin. destruct Hin as (_ & _ & Hd).
    unfold dispatch, emit, abort in Hd.
    destruct (type (deref i));
      try (inversion Hd; subst; reflexivity).
    destruct (request_data (deref i)) as [[a [ | t | | | | | ]]|]; try discriminate.
    destruct (font t); [|discriminate]. inversion Hd; subst; reflexivity. }
  split; [exact Hlog|].
  intros Hok i Hin Hs Hty.
  destruct (render_dispatch_order_aux c filter_ Hok) as [_ Hd].
  assert (Hi : In i (dispatched (snd (render c filter_)))).
  { rewrite Hd. apply filter_In. split; [now apply In_stable_sort | exact Hs]. }
  unfold dispatched in Hi. apply in_map_iff in Hi.
  destruct Hi as [[j call] [Ej Hj]]. cbn in Ej. subst j.
  pose proof (Hlog i call Hj) as Hc. rewrite Hty in Hc. now subst call.
Qed.

(** ** Construction of requests *)

(** The effect and alpha every request takes from the context. *)
Definition context_effect (c : Canvas) : DrawingEffect :=
  transform_drawing_effect (transform (m_context c)).
Definition context_alpha (c : Canvas) : float :=
  transform_alpha (transform (m_context c)).

Lemma enqueue_requests type_ layer_ color_ data (c : Canvas) :
  m_requests (enqueue type_ layer_ color_ data c)
  = m_requests c
    ++ [mkPtr (obst_next (m_obst c))
          {| type := type_;
             layer := layer_;
             drawing_effect := context_effect c;
             request_alpha := context_alpha c;
             angle := angle DrawingRequest_init;
             color := color_;
             blend := blend DrawingRequest_init;
             request_data :=
               Some (mkPtr (N.succ (obst_next (m_obst c))) data) |}].
Proof. reflexivity. Qed.

(** Claim C10: [draw_text] accepts every font, null included: it pushes
    exactly one [TEXT] request whose payload stores the font as given,
    and the font is used only when [render] serves that request, where a
    null font is dereferenced. *)
Theorem draw_text_any_font (font_ : FontPtr) (text_ : string) (position : Vector)
    (alignment_ : FontAlignment) (layer_ : Z) (color_ : Color) (c : Canvas) :
  exists i d,
    m_requests (draw_text font_ text_ position alignment_ layer_ color_ c)
    = m_requests c ++ [i]
    /\ type (deref i) = TEXT
    /\ request_data (deref i) = Some d
    /\ deref d = TextData {| text_pos := apply_translate c position;
                             font := font_;
                             text := text_;
                             alignment := alignment_ |}
    /\ (forall painter,
          dispatch painter i
          = match font_ with
            | Some f =>
                emit (i, font_draw f painter text_ (apply_translate c position)
                           alignment_ (context_effect c) color_ (context_alpha c))
            | None => abort NullFontDereference
            end)
    /\ snd (render (draw_text None text_ position alignment_ layer_ color_
                      (with_requests c []))
              NoFilter)
       = ([], inr NullFontDereference).
Proof.
  unfold draw_text. rewrite enqueue_requests.
  do 2 eexists. split; [reflexivity|].
  split; [reflexivity|]. split; [reflexivity|]. split; [reflexivity|].
  split; [|reflexivity].
  intros painter. unfold dispatch. cbn. destruct font_; reflexivity.
Qed.

(** Claim C6: [apply_translate] is the context transform applied to the
    position, plus the top-left corner of the viewport, for any
    position, transform and viewport. *)
Theorem apply_translate_spec (target : DrawingTarget) (tr : Transform)
    (clip : Rectf) (viewport : Rect) (width : Z) (obst : obstack)
    (requests : list (Ptr DrawingRequest)) (p : Vector) :
  let c := mkCanvas target (mkDrawingContext tr clip viewport width) obst requests in
  apply_translate c p
  = vector_add (apply tr p) (mkVector (of_int (left viewport)) (of_int (top viewport)))
  /\ x (apply_translate c p) = fadd (x (apply tr p)) (of_int (left viewport))
  /\ y (apply_translate c p) = fadd (y (apply tr p)) (of_int (top viewport)).
Proof. intros c. subst c. repeat split. Qed.

(** The color carried by the payload of a filled shape. *)
Definition shape_color (d : DrawingRequestData) : option Color :=
  match d with
  | FillRectData r => Some (fillrect_color r)
  | InverseEllipseData r => Some (ellipse_color r)
  | LineData r => Some (line_color r)
  | TriangleData r => Some (triangle_color r)
  | _ => None
  end.

(** [c'] is [c] with one more request, whose own alpha is the context's
    and whose payload color has the context's alpha times the alpha of
    [color_]. *)
Definition alpha_composed (color_ : Color) (c c' : Canvas) : Prop :=
  exists i d,
    m_requests c' = m_requests c ++ [i]
    /\ request_alpha (deref i) = context_alpha c
    /\ request_data (deref i) = Some d
    /\ option_map alpha (shape_color (deref d))
       = Some (fmul (context_alpha c) (alpha color_)).

Lemma payload_color_alpha (color_ : Color) (c : Canvas) :
  alpha (payload_color color_ c) = fmul (context_alpha c) (alpha color_).
Proof. unfold payload_color, context_alpha. cbn. apply fmul_comm. Qed.

(** Claim C5 (amended): every filled-shape draw call stores, in the color
    of the request's payload, the context's alpha multiplied by the alpha
    of the color argument; the request's own alpha is the context's
    alpha. *)
Theorem filled_shape_alpha (color_ : Color) (layer_ : Z) (c : Canvas) :
  (forall topleft size_,
      alpha_composed color_ c (draw_filled_rect topleft size_ color_ layer_ c))
  /\ (forall rect radius_,
      alpha_composed color_ c (draw_filled_rect_radius rect color_ radius_ layer_ c))
  /\ (forall rect,
      alpha_composed color_ c (draw_filled_rect_rect rect color_ layer_ c))
  /\ (forall pos size_,
      alpha_composed color_ c (draw_inverse_ellipse pos size_ color_ layer_ c))
  /\ (forall pos1_ pos2_,
      alpha_composed color_ c (draw_line pos1_ pos2_ color_ layer_ c))
  /\ (forall pos1_ pos2_ pos3_,
      alpha_composed color_ c (draw_triangle pos1_ pos2_ pos3_ color_ layer_ c)).
Proof.
  unfold alpha_composed, draw_filled_rect_rect, draw_filled_rect,
    draw_filled_rect_radius, draw_inverse_ellipse, draw_line, draw_triangle.
  repeat split; intros; rewrite enqueue_requests; do 2 eexists;
    (split; [reflexivity|]); (split; [reflexivity|]); (split; [reflexivity|]);
    cbn [deref shape_color option_map]; f_equal; apply payload_color_alpha.
Qed.

(** ** Positions stored in the payloads *)

(** The payloads of the buffered requests, in buffer order. *)
Definition payloads (c : Canvas) : list DrawingRequestData :=
  flat_map (fun i => match request_data (deref i) with
                     | Some d => [deref d]
                     | None => []
                     end) (m_requests c).

Lemma enqueue_payloads type_ layer_ color_ data (c : Canvas) :
  payloads (enqueue type_ layer_ color_ data c) = payloads c ++ [data].
Proof. unfold payloads. rewrite enqueue_requests, flat_map_app. reflexivity. Qed.

(** Each position argument of the operations below reaches the payload
    through one [apply_translate]; sizes, colors and the region of a
    gradient are stored as given. *)
Lemma stored_positions (layer_ : Z) (color_ : Color) (c : Canvas) :
  (forall font_ text_ position alignment_,
      payloads (draw_text font_ text_ position alignment_ layer_ color_ c)
      = payloads c
        ++ [TextData (mkTextRequest (apply_translate c position) font_ text_ alignment_)])
  /\ (forall top_ bottom_ direction_ region_,
      payloads (draw_gradient top_ bottom_ layer_ direction_ region_ c)
      = payloads c ++ [GradientData (mkGradientRequest top_ bottom_ direction_ region_)])
  /\ (forall topleft size_,
      payloads (draw_filled_rect topleft size_ color_ layer_ c)
      = payloads c
        ++ [FillRectData (mkFillRectRequest (apply_translate c topleft) size_
                            (payload_color color_ c) zero)])
  /\ (forall rect radius_,
      payloads (draw_filled_rect_radius rect color_ radius_ layer_ c)
      = payloads c
        ++ [FillRectData (mkFillRectRequest (apply_translate c (p1 rect))
                            (mkVector (get_width rect) (get_height rect))
                            (payload_color color_ c) radius_)])
  /\ (forall pos size_,
      payloads (draw_inverse_ellipse pos size_ color_ layer_ c)
      = payloads c
        ++ [InverseEllipseData (mkInverseEllipseRequest (apply_translate c pos) size_
                                  (payload_color color_ c))])
  /\ (forall pos1_ pos2_,
      payloads (draw_line pos1_ pos2_ color_ layer_ c)
      = payloads c
        ++ [LineData (mkLineRequest (apply_translate c pos1_) (apply_translate c pos2_)
                        (payload_color color_ c))])
  /\ (forall pos1_ pos2_ pos3_,
      payloads (draw_triangle pos1_ pos2_ pos3_ color_ layer_ c)
      = payloads c
        ++ [TriangleData (mkTriangleRequest (apply_translate c pos1_)
                            (apply_translate c pos2_) (apply_translate c pos3_)
                            (payload_color color_ c))]).
Proof.
  unfold draw_text, draw_gradient, draw_filled_rect, draw_filled_rect_radius,
    draw_inverse_ellipse, draw_line, draw_triangle.
  repeat split; intros; apply enqueue_payloads.
Qed.

(** ** Culling of texture draws *)

(** [r] lies strictly outside [clip]: entirely to its right, below it,
    to its left or above it. *)
Definition rectf_outside (r clip : Rectf) : bool :=
  fgt (get_left r) (get_right clip)
  || fgt (get_top r) (get_bottom clip)
  || flt (get_right r) (get_left clip)
  || flt (get_bottom r) (get_top clip).

(** [r] and [clip] have a point in common, edges included. *)
Definition rectf_overlaps (r clip : Rectf) : bool :=
  fle (get_left r) (get_right clip)
  && fle (get_left clip) (get_right r)
  && fle (get_top r) (get_bottom clip)
  && fle (get_top clip) (get_bottom r).

(** The rectangle a surface covers when drawn at [position], in the
    coordinates of the caller. *)
Definition surface_rect (position : Vector) (s : Surface) : Rectf :=
  Rectf_of_pos_size position (Sizef_of_Size (mkSize (surface_width s) (surface_height s))).

Lemma clipped_outside (clip : Rectf) (position : Vector) (s : Surface) :
  clipped clip position s = rectf_outside (surface_rect position s) clip.
Proof. reflexivity. Qed.

Lemma overlaps_not_outside (r clip : Rectf) :
  rectf_overlaps r clip = true -> rectf_outside r clip = false.
Proof.
  unfold rectf_overlaps, rectf_outside. rewrite !andb_true_iff.
  intros [[[H1 H2] H3] H4].
  rewrite (fle_not_fgt _ _ H1), (fle_not_fgt _ _ H3).
  rewrite (fle_not_flt _ _ H2), (fle_not_flt _ _ H4). reflexivity.
Qed.

Lemma draw_surface_kept (s : Surface) (position : Vector) (angle_ : float)
    (color_ : Color) (blend_ : Blend) (layer_ : Z) (c : Canvas) :
  clipped (get_cliprect (m_context c)) position s = false ->
  exists i c',
    draw_surface (Some s) position angle_ color_ blend_ layer_ c = Done c'
    /\ m_requests c' = m_requests c ++ [i]
    /\ type (deref i) = TEXTURE /\ layer (deref i) = layer_.
Proof.
  intros H. unfold draw_surface. cbn. rewrite H.
  do 2 eexists. repeat split.
Qed.

Lemma draw_surface_culled (s : Surface) (position : Vector) (angle_ : float)
    (color_ : Color) (blend_ : Blend) (layer_ : Z) (c : Canvas) :
  clipped (get_cliprect (m_context c)) position s = true ->
  exists c',
    draw_surface (Some s) position angle_ color_ blend_ layer_ c = Done c'
    /\ m_requests c' = m_requests c.
Proof.
  intros H. unfold draw_surface. cbn. rewrite H.
  eexists. repeat split.
Qed.

(** What [draw_surface_part] pushes, for any arguments. *)
Lemma draw_surface_part_requests (s : Surface) (srcrect_ dstrect_ : Rectf)
    (layer_ : Z) (c : Canvas) :
  exists i d c',
    draw_surface_part (Some s) srcrect_ dstrect_ layer_ c = Done c'
    /\ m_requests c' = m_requests c ++ [i]
    /\ type (deref i) = TEXTURE /\ layer (deref i) = layer_
    /\ request_data (deref i) = Some d
    /\ deref d
       = TextureData
           {| srcrect := Rectf_of_pos_size (apply_translate c (p1 dstrect_))
                                           (get_size srcrect_);
              dstrect := dstrect_;
              texture := get_texture s |}.
Proof. unfold draw_surface_part. cbn. do 3 eexists. repeat split. Qed.

(** Claim C4 (amended): [draw_surface] with a non-null surface pushes no
    request when the rectangle the surface covers at the given position
    lies strictly outside the clip rectangle, and exactly one request
    when that rectangle overlaps the clip rectangle;
    [draw_surface_part] makes no clip test and pushes exactly one
    request. *)
Theorem draw_surface_cull (s : Surface) (position : Vector) (angle_ : float)
    (color_ : Color) (blend_ : Blend) (layer_ : Z) (c : Canvas) :
  let covered := surface_rect position s in
  let clip := get_cliprect (m_context c) in
  (rectf_outside covered clip = true ->
     exists c',
       draw_surface (Some s) position angle_ color_ blend_ layer_ c = Done c'
       /\ m_requests c' = m_requests c)
  /\ (rectf_overlaps covered clip = true ->
     exists i c',
       draw_surface (Some s) position angle_ color_ blend_ layer_ c = Done c'
       /\ m_requests c' = m_requests c ++ [i]
       /\ type (deref i) = TEXTURE /\ layer (deref i) = layer_)
  /\ (forall srcrect_ dstrect_,
     exists i c',
       draw_surface_part (Some s) srcrect_ dstrect_ layer_ c = Done c'
       /\ m_requests c' = m_requests c ++ [i]
       /\ type (deref i) = TEXTURE /\ layer (deref i) = layer_).
Proof.
  intros covered clip. subst covered clip.
  split; [|split].
  - intros H. apply draw_surface_culled. now rewrite clipped_outside.
  - intros H. apply draw_surface_kept. rewrite clipped_outside.
    now apply overlaps_not_outside.
  - intros srcrect_ dstrect_.
    destruct (draw_surface_part_requests s srcrect_ dstrect_ layer_ c)
      as (i & d & c' & H1 & H2 & H3 & H4 & _).
    now exists i, c'.
Qed.

(** ** Obstack addresses of the buffered objects *)

Definition entry_addresses (i : Ptr DrawingRequest) : list N :=
  match request_data (deref i) with
  | Some d => [addr d]
  | None => []
  end ++ [addr i].

Definition buffer_addresses (l : list (Ptr DrawingRequest)) : list N :=
  flat_map entry_addresses l.

(** The buffered requests and payloads live at distinct addresses the
    obstack has handed out. *)
Definition allocated (c : Canvas) : Prop :=
  NoDup (buffer_addresses (m_requests c))
  /\ Forall (fun a => (a < obst_next (m_obst c))%N) (buffer_addresses (m_requests c)).

Lemma Canvas_new_allocated target context obst :
  allocated (Canvas_new target context obst).
Proof. split; constructor. Qed.

Lemma push_back_allocated (c : Canvas) (r : DrawingRequest) (data : DrawingRequestData) :
  request_data r = Some (mkPtr (N.succ (obst_next (m_obst c))) data) ->
  allocated c ->
  allocated (push_back c (mkObstack (N.succ (N.succ (obst_next (m_obst c)))))
               (mkPtr (obst_next (m_obst c)) r)).
Proof.
  intros Hr [Hnd Hlt]. unfold allocated, push_back, buffer_addresses. cbn.
  rewrite flat_map_app. cbn. unfold entry_addresses at 2 4. cbn. rewrite Hr. cbn.
  fold (buffer_addresses (m_requests c)).
  set (n := obst_next (m_obst c)) in *.
  assert (Hn : forall k, (n <= k)%N -> ~ In k (buffer_addresses (m_requests c))).
  { intros k Hk Hin. rewrite Forall_forall in Hlt. specialize (Hlt k Hin). lia. }
  split.
  - apply NoDup_app; [exact Hnd | | ].
    + repeat constructor; cbn; [intros [E|[]]; lia | intros []].
    + intros a Ha [E|[E|[]]]; subst a; revert Ha; apply Hn; lia.
  - apply Forall_app. split.
    + eapply Forall_impl; [|exact Hlt]. cbv beta. intros; lia.
    + repeat constructor; lia.
Qed.

Lemma enqueue_allocated type_ layer_ color_ data (c : Canvas) :
  allocated c -> allocated (enqueue type_ layer_ color_ data c).
Proof. intros H. unfold enqueue. cbn. now apply push_back_allocated with (data := data). Qed.

Lemma draw_surface_allocated surface position angle_ color_ blend_ layer_ (c c' : Canvas) :
  allocated c ->
  draw_surface surface position angle_ color_ blend_ layer_ c = Done c' ->
  allocated c'.
Proof.
  intros H. unfold draw_surface. destruct surface as [s|]; [|discriminate]. cbn.
  destruct (clipped _ _ _); intros E; inversion E; subst; clear E.
  - destruct H as [Hnd Hlt]. split; cbn; [exact Hnd|].
    eapply Forall_impl; [|exact Hlt]. cbv beta. intros; lia.
  - apply push_back_allocated with (data := TextureData
      {| srcrect := Rectf_of_coords zero zero (of_int (surface_width s))
                                    (of_int (surface_height s));
         dstrect := Rectf_of_pos_size (apply_translate c position)
                      (Sizef_of_Size (mkSize (surface_width s) (surface_height s)));
         texture := get_texture s |}); [reflexivity | exact H].
Qed.

Lemma draw_surface_part_allocated surface srcrect_ dstrect_ layer_ (c c' : Canvas) :
  allocated c ->
  draw_surface_part surface srcrect_ dstrect_ layer_ c = Done c' ->
  allocated c'.
Proof.
  intros H. unfold draw_surface_part. destruct surface as [s|]; [|discriminate]. cbn.
  intros E; inversion E; subst; clear E.
  eapply push_back_allocated; [reflexivity | exact H].
Qed.

Lemma destroyed_destroy (i : Ptr DrawingRequest) :
  map destroyed (destroy i) = entry_addresses i.
Proof. unfold destroy, entry_addresses. now destruct (request_data (deref i)). Qed.

Lemma destroyed_flat_map (l : list (Ptr DrawingRequest)) :
  map destroyed (flat_map destroy l) = buffer_addresses l.
Proof.
  unfold buffer_addresses.
  induction l as [|i l IH]; [reflexivity|].
  cbn [flat_map]. now rewrite map_app, destroyed_destroy, IH.
Qed.

(** On such a buffer [clear], called once or twice, runs no destructor
    twice on the same object. *)
Lemma clear_destroys_once (c : Canvas) :
  allocated c ->
  NoDup (map destroyed (snd (clear c) ++ snd (clear (fst (clear c))))).
Proof.
  intros [Hnd _]. unfold clear. cbn [fst snd with_requests m_requests flat_map].
  now rewrite app_nil_r, destroyed_flat_map.
Qed.

(** Claim C8: [clear] empties the buffer, and a second [clear] changes
    nothing and calls no destructor, so that the two calls together
    destroy each buffered payload and each buffered request once (no
    address is destroyed twice when the buffered objects are distinct
    obstack allocations); on a canvas whose buffer is empty [clear] is a
    no-op. *)
Theorem clear_idempotent (c : Canvas) :
  let c1 := fst (clear c) in
  m_requests c1 = []
  /\ fst (clear c1) = c1
  /\ snd (clear c1) = []
  /\ snd (clear c) ++ snd (clear c1) = flat_map destroy (m_requests c)
  /\ (allocated c -> NoDup (map destroyed (snd (clear c) ++ snd (clear c1))))
  /\ forall target context obst,
       clear (mkCanvas target context obst [])
       = (mkCanvas target context obst [], []).
Proof.
  intros c1. subst c1.
  split; [reflexivity|]. split; [reflexivity|]. split; [reflexivity|].
  split; [apply app_nil_r|].
  split; [apply clear_destroys_once | reflexivity].
Qed.

(** ** Sequences of draw calls *)

(** One call of a draw operation, with its arguments. *)
Inductive DrawCommand :=
| DrawSurface (surface : SurfacePtr) (position : Vector) (angle_ : float)
    (color_ : Color) (blend_ : Blend) (layer_ : Z)
| DrawSurfaceDefault (surface : SurfacePtr) (position : Vector) (layer_ : Z)
| DrawSurfacePart (surface : SurfacePtr) (srcrect_ dstrect_ : Rectf) (layer_ : Z)
| DrawText (font_ : FontPtr) (text_ : string) (position : Vector)
    (alignment_ : FontAlignment) (layer_ : Z) (color_ : Color)
| DrawCenterText (font_ : FontPtr) (text_ : string) (position : Vector)
    (layer_ : Z) (color_ : Color)
| DrawGradient (top_ bottom_ : Color) (layer_ : Z) (direction_ : GradientDirection)
    (region_ : Rectf)
| DrawFilledRect (topleft size_ : Vector) (color_ : Color) (layer_ : Z)
| DrawFilledRectRect (rect : Rectf) (color_ : Color) (layer_ : Z)
| DrawFilledRectRadius (rect : Rectf) (color_ : Color) (radius_ : float) (layer_ : Z)
| DrawInverseEllipse (pos size_ : Vector) (color_ : Color) (layer_ : Z)
| DrawLine (pos1_ pos2_ : Vector) (color_ : Color) (layer_ : Z)
| DrawTriangle (pos1_ pos2_ pos3_ : Vector) (color_ : Color) (layer_ : Z).

Definition draw (cmd : DrawCommand) (c : Canvas) : outcome Canvas :=
  match cmd with
  | DrawSurface surface position angle_ color_ blend_ layer_ =>
      draw_surface surface position angle_ color_ blend_ layer_ c
  | DrawSurfaceDefault surface position layer_ =>
      draw_surface_default surface position layer_ c
  | DrawSurfacePart surface srcrect_ dstrect_ layer_ =>
      draw_surface_part surface srcrect_ dstrect_ layer_ c
  | DrawText font_ text_ position alignment_ layer_ color_ =>
      Done (draw_text font_ text_ position alignment_ layer_ color_ c)
  | DrawCenterText font_ text_ position layer_ color_ =>
      Done (draw_center_text font_ text_ position layer_ color_ c)
  | DrawGradient top_ bottom_ layer_ direction_ region_ =>
      Done (draw_gradient top_ bottom_ layer_ direction_ region_ c)
  | DrawFilledRect topleft size_ color_ layer_ =>
      Done (draw_filled_rect topleft size_ color_ layer_ c)
  | DrawFilledRectRect rect color_ layer_ =>
      Done (draw_filled_rect_rect rect color_ layer_ c)
  | DrawFilledRectRadius rect color_ radius_ layer_ =>
      Done (draw_filled_rect_radius rect color_ radius_ layer_ c)
  | DrawInverseEllipse pos size_ color_ layer_ =>
      Done (draw_inverse_ellipse pos size_ color_ layer_ c)
  | DrawLine pos1_ pos2_ color_ layer_ =>
      Done (draw_line pos1_ pos2_ color_ layer_ c)
  | DrawTriangle pos1_ pos2_ pos3_ color_ layer_ =>
      Done (draw_triangle pos1_ pos2_ pos3_ color_ layer_ c)
  end.

(** The calls are made one after the other; a failed assertion ends the
    program. *)
Fixpoint run_draws (cmds : list DrawCommand) (c : Canvas) : outcome Canvas :=
  match cmds with
  | [] => Done c
  | cmd :: rest =>
      match draw cmd c with
      | Done c' => run_draws rest c'
      | AssertionFailed => AssertionFailed
      end
  end.

Definition command_layer (cmd : DrawCommand) : Z :=
  match cmd with
  | DrawSurface _ _ _ _ _ layer_ | DrawSurfaceDefault _ _ layer_
  | DrawSurfacePart _ _ _ layer_ | DrawText _ _ _ _ layer_ _
  | DrawCenterText _ _ _ layer_ _ | DrawGradient _ _ layer_ _ _
  | DrawFilledRect _ _ _ layer_ | DrawFilledRectRect _ _ layer_
  | DrawFilledRectRadius _ _ _ layer_ | DrawInverseEllipse _ _ _ layer_
  | DrawLine _ _ _ layer_ | DrawTriangle _ _ _ _ layer_ => layer_
  end.

(** The surface argument of the texture draws. *)
Definition command_surface (cmd : DrawCommand) : option SurfacePtr :=
  match cmd with
  | DrawSurface surface _ _ _ _ _ | DrawSurfaceDefault surface _ _
  | DrawSurfacePart surface _ _ _ => Some surface
  | _ => None
  end.

(** The payload is of the class the type tag announces. *)
Definition well_tagged (i : Ptr DrawingRequest) : bool :=
  match type (deref i), request_data (deref i) with
  | TEXTURE, Some {| deref := TextureData _ |}
  | GRADIENT, Some {| deref := GradientData _ |}
  | TEXT, Some {| deref := TextData _ |}
  | FILLRECT, Some {| deref := FillRectData _ |}
  | INVERSEELLIPSE, Some {| deref := InverseEllipseData _ |}
  | LINE, Some {| deref := LineData _ |}
  | TRIANGLE, Some {| deref := TriangleData _ |} => true
  | _, _ => false
  end.

(** What one draw call does to a canvas, whatever its buffer holds: it
    trips the assertion, or takes one obstack object and pushes nothing,
    or takes two and pushes one request. *)
Lemma draw_cases (cmd : DrawCommand) (target : DrawingTarget)
    (context : DrawingContext) (obst : obstack) :
  (command_surface cmd = Some None
   /\ forall l, draw cmd (mkCanvas target context obst l) = AssertionFailed)
  \/ ((exists surface, command_surface cmd = Some (Some surface))
      /\ forall l, draw cmd (mkCanvas target context obst l)
                   = Done (mkCanvas target context
                             (mkObstack (N.succ (obst_next obst))) l))
  \/ (command_surface cmd <> Some None
      /\ exists r data,
        (forall l, draw cmd (mkCanvas target context obst l)
                   = Done (mkCanvas target context
                             (mkObstack (N.succ (N.succ (obst_next obst))))
                             (l ++ [mkPtr (obst_next obst) r])))
        /\ request_data r = Some (mkPtr (N.succ (obst_next obst)) data)
        /\ well_tagged (mkPtr (obst_next obst) r) = true
        /\ layer r = command_layer cmd
        /\ request_alpha r = transform_alpha (transform context)).
Proof.
  destruct cmd as [[s|] position ? ? ? ? | [s|] position ? | [s|] ? ? ? | | | | | | | | | ];
    try (left; split; [reflexivity | intros l; reflexivity]);
    try (destruct (clipped (get_cliprect context) position s) eqn:E;
         [right; left; split; [now exists s|];
          intros l; unfold draw, draw_surface_default, draw_surface; cbn; now rewrite E
         |]);
    right; right; (split; [discriminate|]); do 2 eexists;
    (split;
     [intros l;
      unfold draw, draw_surface_default, draw_surface, draw_surface_part,
        draw_center_text, draw_text, draw_gradient, draw_filled_rect_rect,
        draw_filled_rect, draw_filled_rect_radius, draw_inverse_ellipse,
        draw_line, draw_triangle, enqueue, payload_color, apply_translate;
      cbn; unfold apply_translate; cbn; rewrite ?E; reflexivity
     | repeat split]).
Qed.

Lemma canvas_eta (c : Canvas) :
  c = mkCanvas (m_target c) (m_context c) (m_obst c) (m_requests c).
Proof. now destruct c. Qed.

(** Property X1: a draw call trips the assertion exactly when it is a
    texture draw ([draw_surface], its three-argument overload or
    [draw_surface_part]) given a null surface; every other call returns. *)
Theorem draw_fails_iff_null_surface (cmd : DrawCommand) (c : Canvas) :
  draw cmd c = AssertionFailed <-> command_surface cmd = Some None.
Proof.
  rewrite (canvas_eta c).
  destruct (draw_cases cmd (m_target c) (m_context c) (m_obst c))
    as [[H1 H2] | [[[s H1] H2] | [H1 (r & data & H2 & _)]]];
    rewrite H2; split; intros H; try discriminate; congruence.
Qed.

Lemma draw_step (cmd : DrawCommand) (c c' : Canvas) :
  draw cmd c = Done c' ->
  m_target c' = m_target c /\ m_context c' = m_context c
  /\ (obst_next (m_obst c) < obst_next (m_obst c'))%N
  /\ (m_requests c' = m_requests c
      \/ exists i,
           m_requests c' = m_requests c ++ [i]
           /\ layer (deref i) = command_layer cmd
           /\ request_alpha (deref i) = context_alpha c
           /\ well_tagged i = true).
Proof.
  rewrite (canvas_eta c) at 1.
  destruct (draw_cases cmd (m_target c) (m_context c) (m_obst c))
    as [[H1 H2] | [[[s H1] H2] | [H1 (r & data & H2 & Hd & Ht & Hl & Ha)]]];
    rewrite H2; intros E; inversion E; subst; clear E; cbn.
  - repeat split; [lia | now left].
  - repeat split; [lia|]. right. exists (mkPtr (obst_next (m_obst c)) r).
    repeat split; assumption.
Qed.

Lemma run_draws_append_only_aux (cmds : list DrawCommand) (c c' : Canvas) :
  run_draws cmds c = Done c' ->
  m_target c' = m_target c
  /\ exists added,
       m_requests c' = m_requests c ++ added
       /\ Forall (fun i => well_tagged i = true) added.
Proof.
  revert c. induction cmds as [|cmd cmds IH]; intros c.
  - cbn. intros E; inversion E; subst.
    split; [reflexivity|]. exists []. rewrite app_nil_r. now split.
  - cbn [run_draws]. destruct (draw cmd c) as [c1|] eqn:E1; [|discriminate].
    intros E. destruct (draw_step cmd c E1) as (Ht1 & _ & _ & Hr1).
    destruct (IH c1 E) as (Ht & added & Hr & Hall).
    split; [congruence|].
    destruct Hr1 as [Hr1 | (i & Hr1 & _ & _ & Hw)].
    + exists added. rewrite Hr, Hr1. now split.
    + exists (i :: added). rewrite Hr, Hr1, <- app_assoc. split; [reflexivity|].
      now constructor.
Qed.

(** Property X2: a sequence of draw calls only appends to the buffer. The
    buffer found is an initial segment of the buffer left, at most one
    request per call is added, each added request has the layer of one of
    the calls, the context's alpha and a payload of the class of its type
    tag; target and context are left alone and the obstack only grows. *)
Theorem run_draws_append_only (cmds : list DrawCommand) (c c' : Canvas) :
  run_draws cmds c = Done c' ->
  m_target c' = m_target c /\ m_context c' = m_context c
  /\ (obst_next (m_obst c) <= obst_next (m_obst c'))%N
  /\ exists added,
       m_requests c' = m_requests c ++ added
       /\ (List.length added <= List.length cmds)%nat
       /\ Forall (fun i => In (layer (deref i)) (map command_layer cmds)
                           /\ request_alpha (deref i) = context_alpha c
                           /\ well_tagged i = true) added.
Proof.
  revert c. induction cmds as [|cmd cmds IH]; intros c.
  - cbn. intros E; inversion E; subst.
    repeat split; [lia|]. exists []. rewrite app_nil_r. repeat split; constructor.
  - cbn [run_draws]. destruct (draw cmd c) as [c1|] eqn:E1; [|discriminate].
    intros E. destruct (draw_step cmd c E1) as (Ht1 & Hc1 & Ho1 & Hr1).
    destruct (IH c1 E) as (Ht & Hc & Ho & added & Hr & Hlen & Hall).
    assert (Hall' : Forall (fun i => In (layer (deref i)) (map command_layer (cmd :: cmds))
                           /\ request_alpha (deref i) = context_alpha c
                           /\ well_tagged i = true) added).
    { eapply Forall_impl; [|exact Hall]. cbv beta. intros i (H1 & H2 & H3).
      repeat split; [now right | | exact H3].
      rewrite H2. unfold context_alpha. now rewrite Hc1. }
    split; [congruence|]. split; [congruence|]. split; [lia|].
    destruct Hr1 as [Hr1 | (i & Hr1 & Hl & Ha & Hw)].
    + exists added. rewrite Hr, Hr1. repeat split; [cbn; lia | exact Hall'].
    + exists (i :: added). rewrite Hr, Hr1, <- app_assoc. repeat split.
      * cbn. lia.
      * constructor; [|exact Hall']. repeat split; [now left | exact Ha | exact Hw].
Qed.

Lemma dispatch_well_tagged (painter : Painter) (i : Ptr DrawingRequest) :
  well_tagged i = true ->
  (exists call, dispatch painter i = ([(i, call)], inl tt)
                /\ call_painter call = Some painter)
  \/ (dispatch painter i = ([], inr NullFontDereference)
      /\ type (deref i) = TEXT
      /\ exists d t, request_data (deref i) = Some d /\ deref d = TextData t
                     /\ font t = None).
Proof.
  unfold well_tagged, dispatch, emit, abort.
  destruct (type (deref i));
    destruct (request_data (deref i)) as [[a [ | t | | | | | ]]|]; try discriminate;
    intros _; try (left; eexists; split; reflexivity).
  destruct (font t) eqn:Ef.
  - left; eexists; split; reflexivity.
  - right. split; [reflexivity|]. split; [reflexivity|].
    do 2 eexists. repeat split. exact Ef.
Qed.

Lemma dispatch_all_well_tagged painter filter_ (l : list (Ptr DrawingRequest)) :
  forallb well_tagged l = true ->
  (snd (dispatch_all painter filter_ l) = inl tt
   \/ snd (dispatch_all painter filter_ l) = inr NullFontDereference)
  /\ forall i call, In (i, call) (log_of (dispatch_all painter filter_ l)) ->
                    call_painter call = Some painter.
Proof.
  intros Hw. split.
  - induction l as [|i l IH]; [now left|].
    cbn [forallb] in Hw. apply andb_true_iff in Hw. destruct Hw as [Hi Hl].
    cbn [dispatch_all]. destruct (filtered_out filter_ (deref i)); [now apply IH|].
    destruct (dispatch_well_tagged painter i Hi) as [(call & -> & _) | (-> & _)].
    + specialize (IH Hl). cbn.
      destruct (dispatch_all painter filter_ l) as [log r]. exact IH.
    + now right.
  - intros i call Hin. apply dispatch_all_log in Hin.
    destruct Hin as (Hin & _ & Hd).
    rewrite forallb_forall in Hw.
    destruct (dispatch_well_tagged painter i (Hw i Hin)) as [(call' & E & Hp) | (E & _)].
    + rewrite E in Hd. inversion Hd; subst. exact Hp.
    + rewrite E in Hd. discriminate.
Qed.

(** Property X3: on a canvas filled by draw calls from a new canvas,
    every buffered request has the payload class of its type tag; so
    [render] never casts a payload to the wrong class (the only fault left
    is a null font), never calls the lightmap's light query, and makes
    every call through the painter the target selects. *)
Theorem render_built_canvas (cmds : list DrawCommand) (target : DrawingTarget)
    (context : DrawingContext) (obst : obstack) (c : Canvas) (filter_ : Filter) :
  run_draws cmds (Canvas_new target context obst) = Done c ->
  forallb well_tagged (m_requests c) = true
  /\ snd (snd (render c filter_)) <> inr NotATextRequest
  /\ forall i call,
       In (i, call) (log_of (snd (render c filter_))) ->
       call_painter call = Some (select_painter target)
       /\ call <> lightmap_get_light (deref i).
Proof.
  intros Hrun.
  destruct (run_draws_append_only_aux cmds _ Hrun) as (Ht & added & Hr & Hall).
  cbn in Ht, Hr. subst added.
  assert (Hw : forallb well_tagged (m_requests c) = true).
  { apply forallb_forall. rewrite Forall_forall in Hall. exact Hall. }
  split; [exact Hw|].
  assert (Hs : forallb well_tagged (stable_sort layer_less (m_requests c)) = true).
  { eapply forallb_perm; [|exact Hw]. symmetry. apply (stable_sort_perm request_layer). }
  rewrite render_run, Ht.
  destruct (dispatch_all_well_tagged (select_painter target) filter_ _ Hs) as [Hf Hp].
  split.
  - destruct Hf as [-> | ->]; discriminate.
  - intros i call Hin. specialize (Hp i call Hin). split; [exact Hp|].
    intros ->. discriminate.
Qed.

(** ** The drawing effect of texture requests *)

Lemma effect_from_surface_bits (e : DrawingEffect) (s : Surface) (n : Z) :
  Z.testbit (Z.lxor e (effect_from_surface s)) n
  = xorb (Z.testbit e n) (get_flipx s && Z.testbit HORIZONTAL_FLIP n).
Proof.
  rewrite Z.lxor_spec. unfold effect_from_surface.
  destruct (get_flipx s); cbn [andb]; [reflexivity|].
  now rewrite Z.testbit_0_l.
Qed.

(** Property X4: the request of a texture draw carries the context's
    effect with the bits of [HORIZONTAL_FLIP] toggled when the surface is
    flipped and untouched when it is not; toggling once more with the
    surface's effect gives the context's effect back. *)
Theorem texture_effect_toggles_flip (cmd : DrawCommand) (s : Surface)
    (c c' : Canvas) (i : Ptr DrawingRequest) :
  command_surface cmd = Some (Some s) ->
  draw cmd c = Done c' ->
  m_requests c' = m_requests c ++ [i] ->
  type (deref i) = TEXTURE
  /\ (forall n, Z.testbit (drawing_effect (deref i)) n
                = xorb (Z.testbit (context_effect c) n)
                       (get_flipx s && Z.testbit HORIZONTAL_FLIP n))
  /\ (get_flipx s = false -> drawing_effect (deref i) = context_effect c)
  /\ Z.lxor (drawing_effect (deref i)) (effect_from_surface s) = context_effect c.
Proof.
  intros Hs Hd Hr.
  assert (He : type (deref i) = TEXTURE
               /\ drawing_effect (deref i)
                  = Z.lxor (context_effect c) (effect_from_surface s)).
  { destruct cmd; try discriminate; cbn in Hs; inversion Hs; subst; clear Hs;
      cbn in Hd; unfold draw_surface_default, draw_surface, draw_surface_part in Hd;
      cbn in Hd;
      try (destruct (clipped _ _ _));
      inversion Hd; subst; clear Hd; cbn in Hr;
      try (rewrite <- (app_nil_r (m_requests c)) in Hr at 1;
           apply app_inv_head in Hr; discriminate);
      apply app_inv_head in Hr; inversion Hr; subst; now split. }
  destruct He as [Ht He]. split; [exact Ht|]. rewrite He. split; [|split].
  - intros n. apply effect_from_surface_bits.
  - intros Hf. unfold effect_from_surface. rewrite Hf. apply Z.lxor_0_r.
  - rewrite Z.lxor_assoc, Z.lxor_nilpotent. apply Z.lxor_0_r.
Qed.

(** ** The whole life of a canvas *)

(** A call on the canvas: a draw call, [render] or [clear]. *)
Inductive Command :=
| Draw (cmd : DrawCommand)
| Render (filter_ : Filter)
| Clear.

(** The canvas together with the destructor calls made so far.  A failed
    assertion, and a [render] that runs into a fault, end the program. *)
Definition exec (cmd : Command) (st : Canvas * list Destruction)
  : option (Canvas * list Destruction) :=
  match cmd with
  | Draw d =>
      match draw d (fst st) with
      | Done c' => Some (c', snd st)
      | AssertionFailed => None
      end
  | Render filter_ =>
      if completed (snd (render (fst st) filter_))
      then Some (fst (render (fst st) filter_), snd st)
      else None
  | Clear => Some (fst (clear (fst st)), snd st ++ snd (clear (fst st)))
  end.

Fixpoint run (cmds : list Command) (st : Canvas * list Destruction)
  : option (Canvas * list Destruction) :=
  match cmds with
  | [] => Some st
  | cmd :: rest =>
      match exec cmd st with
      | Some st' => run rest st'
      | None => None
      end
  end.

(** [Canvas::~Canvas] *)
Definition Canvas_destroy (c : Canvas) : list Destruction := snd (clear c).

(** The objects destroyed so far and the buffered ones are pairwise
    distinct allocations of the obstack, made since the canvas was
    created with the obstack at [first]. *)
Definition tracked (first : N) (st : Canvas * list Destruction) : Prop :=
  let objects := map destroyed (snd st) ++ buffer_addresses (m_requests (fst st)) in
  NoDup objects
  /\ Forall (fun a => (first <= a < obst_next (m_obst (fst st)))%N) objects
  /\ (first <= obst_next (m_obst (fst st)))%N.

Lemma buffer_addresses_app (l l' : list (Ptr DrawingRequest)) :
  buffer_addresses (l ++ l') = buffer_addresses l ++ buffer_addresses l'.
Proof. apply flat_map_app. Qed.

Lemma buffer_addresses_sorted (l : list (Ptr DrawingRequest)) :
  Permutation (buffer_addresses (stable_sort layer_less l)) (buffer_addresses l).
Proof.
  unfold buffer_addresses. apply Permutation_flat_map.
  apply (stable_sort_perm request_layer).
Qed.

Lemma exec_tracked (first : N) (cmd : Command) (st st' : Canvas * list Destruction) :
  tracked first st -> exec cmd st = Some st' -> tracked first st'.
Proof.
  destruct st as [c log]. intros (Hnd & Hlt & Hfirst). destruct cmd as [d|f|]; cbn [exec fst snd].
  - destruct (draw d c) as [c'|] eqn:Ed; [|discriminate].
    intros E; inversion E; subst; clear E.
    rewrite (canvas_eta c) in Ed.
    destruct (draw_cases d (m_target c) (m_context c) (m_obst c))
      as [[_ H2] | [[_ H2] | [_ (r & data & H2 & Hd & _)]]];
      rewrite H2 in Ed; inversion Ed; subst; clear Ed;
      unfold tracked; cbn [fst snd m_requests m_obst obst_next] in *.
    + split; [exact Hnd|]. split; [|lia].
      eapply Forall_impl; [|exact Hlt]. cbv beta. intros; lia.
    + rewrite buffer_addresses_app, app_assoc.
      unfold buffer_addresses at 2 4. cbn [flat_map]. unfold entry_addresses.
      cbn [deref addr]. rewrite Hd. cbn [addr app].
      set (n := obst_next (m_obst c)) in *.
      set (objects := map destroyed log ++ buffer_addresses (m_requests c)) in *.
      assert (Hn : forall k, (n <= k)%N -> ~ In k objects).
      { intros k Hk Hin. rewrite Forall_forall in Hlt. specialize (Hlt k Hin). lia. }
      split; [|split; [|lia]].
      * apply NoDup_app; [exact Hnd | | ].
        -- repeat constructor; cbn; [intros [E|[]]; lia | intros []].
        -- intros a Ha [E|[E|[]]]; subst a; revert Ha; apply Hn; lia.
      * apply Forall_app. split.
        -- eapply Forall_impl; [|exact Hlt]. cbv beta. intros; lia.
        -- repeat constructor; lia.
  - destruct (completed _); [|discriminate].
    intros E; inversion E; subst; clear E.
    unfold tracked; cbn [fst snd render with_requests m_requests m_obst] in *.
    assert (HP : Permutation
                   (map destroyed log ++ buffer_addresses (m_requests c))
                   (map destroyed log
                    ++ buffer_addresses (stable_sort layer_less (m_requests c))))
      by (apply Permutation_app_head; symmetry; apply buffer_addresses_sorted).
    split; [|split; [|exact Hfirst]].
    + eapply Permutation_NoDup; [exact HP | exact Hnd].
    + eapply Permutation_Forall; [exact HP | exact Hlt].
  - intros E; inversion E; subst; clear E.
    unfold tracked, clear; cbn [fst snd with_requests m_requests m_obst] in *.
    rewrite map_app, destroyed_flat_map. cbn [buffer_addresses flat_map].
    rewrite app_nil_r. repeat split; assumption.
Qed.

Lemma run_tracked (first : N) (cmds : list Command) (st st' : Canvas * list Destruction) :
  tracked first st -> run cmds st = Some st' -> tracked first st'.
Proof.
  revert st. induction cmds as [|cmd cmds IH]; intros st Hst; cbn [run].
  - intros E; inversion E; subst. exact Hst.
  - destruct (exec cmd st) as [st1|] eqn:E1; [|discriminate].
    apply IH. eapply exec_tracked; eassumption.
Qed.

(** Property X5: over the whole life of a canvas, from its construction
    through any calls of draw operations, [render] and [clear] to its
    destructor, no obstack object is destroyed twice, and every object
    destroyed was allocated on the obstack after the canvas was created. *)
Theorem canvas_life_destroys_once (cmds : list Command) (target : DrawingTarget)
    (context : DrawingContext) (obst : obstack) (c : Canvas) (log : list Destruction) :
  run cmds (Canvas_new target context obst, []) = Some (c, log) ->
  NoDup (map destroyed (log ++ Canvas_destroy c))
  /\ Forall (fun a => (obst_next obst <= a < obst_next (m_obst c))%N)
       (map destroyed (log ++ Canvas_destroy c)).
Proof.
  intros Hrun.
  assert (H0 : tracked (obst_next obst) (Canvas_new target context obst, [])).
  { unfold tracked. cbn. repeat split; try constructor; lia. }
  destruct (run_tracked cmds H0 Hrun) as (Hnd & Hlt & _).
  cbn [fst snd] in Hnd, Hlt.
  unfold Canvas_destroy, clear. cbn [snd fst].
  rewrite map_app, destroyed_flat_map.
  split; [exact Hnd | exact Hlt].
Qed.

(** Property X6: a [draw_surface] call whose surface is discarded by the
    clip test has already taken one obstack object for the request; that
    object is not in the buffer, and [clear] never runs its destructor. *)
Theorem culled_surface_takes_obstack (s : Surface) (position : Vector)
    (angle_ : float) (color_ : Color) (blend_ : Blend) (layer_ : Z) (c : Canvas) :
  clipped (get_cliprect (m_context c)) position s = true ->
  allocated c ->
  exists c',
    draw_surface (Some s) position angle_ color_ blend_ layer_ c = Done c'
    /\ m_requests c' = m_requests c
    /\ obst_next (m_obst c') = N.succ (obst_next (m_obst c))
    /\ ~ In (obst_next (m_obst c)) (map destroyed (snd (clear c')))
    /\ allocated c'.
Proof.
  intros Hclip Hal.
  unfold draw_surface. cbn. rewrite Hclip. eexists. split; [reflexivity|].
  cbn. split; [reflexivity|]. split; [reflexivity|]. split.
  - unfold clear. cbn. rewrite destroyed_flat_map.
    destruct Hal as [_ Hlt]. rewrite Forall_forall in Hlt.
    intros Hin. specialize (Hlt _ Hin). lia.
  - destruct Hal as [Hnd Hlt]. split; cbn; [exact Hnd|].
    eapply Forall_impl; [|exact Hlt]. cbv beta. intros; lia.
Qed.

(** ** How [render] composes with draw calls *)

Lemma run_draws_any_buffer (cmds : list DrawCommand) (target : DrawingTarget)
    (context : DrawingContext) (obst : obstack) (l : list (Ptr DrawingRequest))
    (c' : Canvas) :
  run_draws cmds (mkCanvas target context obst l) = Done c' ->
  exists obst' added,
    forall l', run_draws cmds (mkCanvas target context obst l')
               = Done (mkCanvas target context obst' (l' ++ added)).
Proof.
  revert obst l. induction cmds as [|cmd cmds IH]; intros obst l.
  - intros _. exists obst, []. intros l'. cbn. now rewrite app_nil_r.
  - cbn [run_draws].
    destruct (draw_cases cmd target context obst)
      as [[_ H2] | [[_ H2] | [_ (r & data & H2 & _)]]]; rewrite H2.
    + discriminate.
    + intros E. destruct (IH _ _ E) as (obst' & added & H).
      exists obst', added. intros l'. cbn [run_draws]. now rewrite H2.
    + intros E. destruct (IH _ _ E) as (obst' & added & H).
      exists obst', (mkPtr (obst_next obst) r :: added).
      intros l'. cbn [run_draws]. rewrite H2, H. now rewrite <- app_assoc.
Qed.

Lemma stable_sort_app_sorted (l added : list (Ptr DrawingRequest)) :
  stable_sort layer_less (stable_sort layer_less l ++ added)
  = stable_sort layer_less (l ++ added).
Proof.
  apply (@stable_sort_unique _ request_layer).
  - apply (stable_sort_sorted request_layer).
  - apply (stable_sort_sorted request_layer).
  - intros k. unfold layer_less.
    rewrite !(stable_sort_stable request_layer), !filter_app.
    now rewrite (stable_sort_stable request_layer).
Qed.

(** Property X7: a [render] in the middle of a frame does not change what
    a later [render] does: the draw calls that follow succeed all the
    same, and the later [render] leaves the same canvas and makes the same
    backend calls as if the first [render] had not happened. *)
Theorem intermediate_render_harmless (cmds : list DrawCommand) (c c' : Canvas)
    (filter1 filter2 : Filter) :
  run_draws cmds c = Done c' ->
  exists c'',
    run_draws cmds (fst (render c filter1)) = Done c''
    /\ render c'' filter2 = render c' filter2.
Proof.
  intros Hrun. rewrite (canvas_eta c) in Hrun.
  destruct (run_draws_any_buffer _ _ _ _ _ Hrun) as (obst' & added & H).
  rewrite H in Hrun. inversion Hrun; subst; clear Hrun.
  eexists. split.
  - unfold render, with_requests. cbn [fst]. apply H.
  - unfold render, with_requests. cbn.
    now rewrite stable_sort_app_sorted.
Qed.

Lemma filter_none (A : Type) (p : A -> bool) (l : list A) :
  Forall (fun a => p a = false) l -> filter p l = [].
Proof.
  induction 1 as [|a l Ha _ IH]; [reflexivity|]. cbn. now rewrite Ha.
Qed.

Lemma filter_every (A : Type) (p : A -> bool) (l : list A) :
  Forall (fun a => p a = true) l -> filter p l = l.
Proof.
  induction 1 as [|a l Ha _ IH]; [reflexivity|]. cbn. now rewrite Ha, IH.
Qed.

(** A buffer sorted by layer is its part below a layer, then its part at
    that layer, then its part above. *)
Lemma sorted_three_parts (t : Z) (l : list (Ptr DrawingRequest)) :
  sorted_by_key request_layer l ->
  l = filter (fun i => request_layer i <? t) l
      ++ filter (fun i => request_layer i =? t) l
      ++ filter (fun i => t <? request_layer i) l.
Proof.
  induction 1 as [|a l Hl IH Ha]; [reflexivity|].
  cbn [filter].
  destruct (Z.ltb_spec (request_layer a) t) as [Hlt|Hge].
  - destruct (Z.eqb_spec (request_layer a) t); [lia|].
    destruct (Z.ltb_spec t (request_layer a)); [lia|].
    cbn. now rewrite <- IH.
  - assert (Hnone : filter (fun i => request_layer i <? t) l = []).
    { apply filter_none. eapply Forall_impl; [|exact Ha]. cbv beta.
      intros b Hb. apply Z.ltb_ge. lia. }
    rewrite Hnone in *. cbn [app] in *.
    destruct (Z.eqb_spec (request_layer a) t) as [Heq|Hne].
    + destruct (Z.ltb_spec t (request_layer a)); [lia|].
      cbn. now rewrite <- IH.
    + destruct (Z.ltb_spec t (request_layer a)); [|lia].
      assert (Hnone' : filter (fun i => request_layer i =? t) l = []).
      { apply filter_none. eapply Forall_impl; [|exact Ha]. cbv beta.
        intros b Hb. apply Z.eqb_neq. lia. }
      rewrite Hnone' in *. cbn [app] in *. now rewrite <- IH.
Qed.

(** Property X8: the pass with no filter dispatches what the
    [BELOW_LIGHTMAP] pass dispatches, then the requests at layer
    [LAYER_LIGHTMAP], then what the [ABOVE_LIGHTMAP] pass dispatches; the
    two threshold passes have no request in common. *)
Theorem render_passes_split (c : Canvas) :
  forallb dispatchable (m_requests c) = true ->
  dispatched (snd (render c NoFilter))
  = dispatched (snd (render c BELOW_LIGHTMAP))
    ++ filter (fun i => request_layer i =? LAYER_LIGHTMAP)
         (stable_sort layer_less (m_requests c))
    ++ dispatched (snd (render c ABOVE_LIGHTMAP))
  /\ forall i, In i (dispatched (snd (render c BELOW_LIGHTMAP))) ->
               ~ In i (dispatched (snd (render c ABOVE_LIGHTMAP))).
Proof.
  intros Hok. rewrite !dispatched_render by exact Hok.
  rewrite (filter_ext _ _ survives_below), (filter_ext _ _ survives_above).
  change (survives NoFilter) with (fun _ : Ptr DrawingRequest => true).
  rewrite filter_all. split.
  - apply sorted_three_parts. apply (stable_sort_sorted request_layer).
  - intros i H1 H2. apply filter_In in H1, H2.
    destruct H1 as [_ H1], H2 as [_ H2].
    apply Z.ltb_lt in H1, H2. lia.
Qed.

(** ** A pass that runs into a null font *)

Lemma dispatch_all_filter painter filter_ (l : list (Ptr DrawingRequest)) :
  dispatch_all painter filter_ l
  = dispatch_all painter NoFilter (filter (survives filter_) l).
Proof.
  induction l as [|i l IH]; [reflexivity|].
  cbn [filter dispatch_all]. unfold survives at 1.
  destruct (filtered_out filter_ (deref i)); cbn [negb]; [exact IH|].
  cbn [dispatch_all filtered_out]. now rewrite IH.
Qed.

Lemma dispatch_all_stops painter (pre post : list (Ptr DrawingRequest))
    (i : Ptr DrawingRequest) :
  forallb dispatchable pre = true ->
  dispatchable i = false ->
  dispatched (dispatch_all painter NoFilter (pre ++ i :: post)) = pre
  /\ completed (dispatch_all painter NoFilter (pre ++ i :: post)) = false.
Proof.
  intros Hpre Hi. induction pre as [|j pre IH].
  - cbn [app dispatch_all filtered_out].
    destruct (dispatch_not_dispatchable painter i Hi) as [fault ->]. now split.
  - cbn [forallb] in Hpre. apply andb_true_iff in Hpre. destruct Hpre as [Hj Hpre].
    cbn [app dispatch_all filtered_out].
    destruct (dispatch_dispatchable painter j Hj) as [call ->].
    destruct (IH Hpre) as [Hd Hc].
    unfold dispatched, completed, log_of in *.
    destruct (dispatch_all painter NoFilter (pre ++ i :: post)) as [log r].
    cbn in *. split; [now rewrite Hd | exact Hc].
Qed.

Lemma filter_layer_sort (p : Ptr DrawingRequest -> bool) (l : list (Ptr DrawingRequest)) :
  filter p (stable_sort layer_less l) = stable_sort layer_less (filter p l).
Proof. exact (filter_stable_sort request_layer p l). Qed.

(** Property X9: [render] stops at the first surviving request, in layer
    order, that it cannot serve (a [TEXT] request without a font): the
    surviving requests sorted before it are dispatched, it and the
    requests sorted after it are not, and the pass does not complete. *)
Theorem render_stops_at_fault (c : Canvas) (filter_ : Filter)
    (pre post : list (Ptr DrawingRequest)) (i : Ptr DrawingRequest) :
  stable_sort layer_less (filter (survives filter_) (m_requests c))
  = pre ++ i :: post ->
  forallb dispatchable pre = true ->
  dispatchable i = false ->
  dispatched (snd (render c filter_)) = pre
  /\ completed (snd (render c filter_)) = false.
Proof.
  intros Hsplit Hpre Hi.
  rewrite render_run, dispatch_all_filter, filter_layer_sort, Hsplit.
  now apply dispatch_all_stops.
Qed.

(** ** The target only selects the painter *)

(** The call made through another painter. *)
Definition set_painter (p : Painter) (call : BackendCall) : BackendCall :=
  match call with
  | painter_draw_texture _ r => painter_draw_texture p r
  | painter_draw_gradient _ r => painter_draw_gradient p r
  | font_draw f _ text_ pos alignment_ effect color_ alpha_ =>
      font_draw f p text_ pos alignment_ effect color_ alpha_
  | painter_draw_filled_rect _ r => painter_draw_filled_rect p r
  | painter_draw_inverse_ellipse _ r => painter_draw_inverse_ellipse p r
  | painter_draw_line _ r => painter_draw_line p r
  | painter_draw_triangle _ r => painter_draw_triangle p r
  | lightmap_get_light r => lightmap_get_light r
  end.

Definition retarget (p : Painter) (m : Dispatch unit) : Dispatch unit :=
  (map (fun e : Entry => (fst e, set_painter p (snd e))) (fst m), snd m).

Lemma dispatch_retarget (p p' : Painter) (i : Ptr DrawingRequest) :
  dispatch p' i = retarget p' (dispatch p i).
Proof.
  unfold dispatch, retarget, emit, abort.
  destruct (type (deref i)); try reflexivity.
  destruct (request_data (deref i)) as [[a [ | t | | | | | ]]|]; try reflexivity.
  destruct (font t); reflexivity.
Qed.

Lemma dispatch_all_retarget (p p' : Painter) filter_ (l : list (Ptr DrawingRequest)) :
  dispatch_all p' filter_ l = retarget p' (dispatch_all p filter_ l).
Proof.
  induction l as [|i l IH]; [reflexivity|].
  cbn [dispatch_all]. destruct (filtered_out filter_ (deref i)); [exact IH|].
  rewrite IH, (dispatch_retarget p p' i). unfold retarget, bind.
  destruct (dispatch p i) as [log [[]|fault]]; [|reflexivity].
  destruct (dispatch_all p filter_ l) as [log' r]. cbn. now rewrite map_app.
Qed.

(** Property X10: what [render] does depends on the canvas only through
    its target and its buffer, and on the target only through the painter:
    on two canvases with the same buffer, whatever their targets, contexts
    and obstacks, [render] makes the same calls for the same requests in
    the same order, each through its own target's painter, and ends the
    same way. *)
Theorem render_target_selects_painter (target target' : DrawingTarget)
    (context context' : DrawingContext) (obst obst' : obstack)
    (l : list (Ptr DrawingRequest)) (filter_ : Filter) :
  snd (render (mkCanvas target' context' obst' l) filter_)
  = retarget (select_painter target')
      (snd (render (mkCanvas target context obst l) filter_))
  /\ dispatched (snd (render (mkCanvas target' context' obst' l) filter_))
     = dispatched (snd (render (mkCanvas target context obst l) filter_))
  /\ completed (snd (render (mkCanvas target' context' obst' l) filter_))
     = completed (snd (render (mkCanvas target context obst l) filter_)).
Proof.
  rewrite !render_run. cbn [m_target m_requests].
  rewrite (dispatch_all_retarget (select_painter target) (select_painter target')).
  split; [reflexivity|]. split.
  - unfold dispatched, log_of, retarget. cbn [fst]. rewrite map_map. reflexivity.
  - reflexivity.
Qed.

(** ** Clip test and NaN *)

Lemma flt_nan_l (a : float) : flt S754_nan a = false.
Proof. reflexivity. Qed.

Lemma flt_nan_r (a : float) : flt a S754_nan = false.
Proof. unfold flt, SFltb. now destruct a. Qed.

Lemma fadd_nan_l (a : float) : fadd S754_nan a = S754_nan.
Proof. reflexivity. Qed.

(** Property X11: the clip test discards nothing it cannot compare: a
    surface drawn at a position whose coordinates are NaN, or against a
    clip rectangle whose edges are NaN, is never discarded, so
    [draw_surface] pushes one request for it. *)
Theorem draw_surface_nan_not_culled (s : Surface) (position : Vector)
    (angle_ : float) (color_ : Color) (blend_ : Blend) (layer_ : Z) (c : Canvas) :
  (x position = S754_nan /\ y position = S754_nan)
  \/ get_cliprect (m_context c)
     = Rectf_of_coords S754_nan S754_nan S754_nan S754_nan ->
  exists i c',
    draw_surface (Some s) position angle_ color_ blend_ layer_ c = Done c'
    /\ m_requests c' = m_requests c ++ [i]
    /\ type (deref i) = TEXTURE /\ layer (deref i) = layer_.
Proof.
  intros H. apply draw_surface_kept. unfold clipped, fgt.
  destruct H as [[Hx Hy] | Hc].
  - rewrite Hx, Hy, !fadd_nan_l, !flt_nan_l, !flt_nan_r. reflexivity.
  - rewrite Hc. cbn [get_right get_bottom get_left get_top Rectf_of_coords p1 p2 x y].
    rewrite !flt_nan_l, !flt_nan_r. reflexivity.
Qed.

(** ** One call per request *)

Lemma allocated_distinct (l : list (Ptr DrawingRequest)) :
  NoDup (buffer_addresses l) -> NoDup l.
Proof.
  induction l as [|i l IH]; [constructor|].
  cbn [buffer_addresses flat_map]. intros H.
  constructor.
  - intros Hin.
    assert (H1 : In (addr i) (entry_addresses i))
      by (unfold entry_addresses; apply in_or_app; right; now left).
    assert (H2 : In (addr i) (flat_map entry_addresses l))
      by (apply in_flat_map; exists i; split; [exact Hin | exact H1]).
    apply in_split in H1. destruct H1 as (l1 & l2 & E). rewrite E in H.
    rewrite <- app_assoc in H. cbn [app] in H.
    apply NoDup_remove_2 in H. apply H.
    apply in_or_app. right. apply in_or_app. now right.
  - apply IH. eapply NoDup_app_remove_l. exact H.
Qed.

(** Property X12: on a buffer of distinct obstack objects, as draw calls
    build it, one [render] pass dispatches no request twice and makes at
    most one backend call per buffered request. *)
Theorem render_dispatches_once (c : Canvas) (filter_ : Filter) :
  allocated c ->
  NoDup (dispatched (snd (render c filter_)))
  /\ (List.length (calls (snd (render c filter_))) <= List.length (m_requests c))%nat.
Proof.
  intros [Hnd _]. apply allocated_distinct in Hnd.
  rewrite render_run.
  destruct (dispatch_all_prefix (select_painter (m_target c)) filter_
              (stable_sort layer_less (m_requests c))) as [rest Hrest].
  assert (Hs : NoDup (filter (survives filter_)
                        (stable_sort layer_less (m_requests c)))).
  { apply NoDup_filter. eapply Permutation_NoDup; [|exact Hnd].
    symmetry. apply (stable_sort_perm request_layer). }
  rewrite Hrest in Hs. split.
  - eapply NoDup_app_remove_r. exact Hs.
  - set (run_ := dispatch_all (select_painter (m_target c)) filter_
                    (stable_sort layer_less (m_requests c))) in *.
    assert (Hlen : List.length (calls run_) = List.length (dispatched run_))
      by (unfold calls, dispatched; now rewrite !length_map).
    rewrite Hlen.
    apply (f_equal (@List.length _)) in Hrest. rewrite length_app in Hrest.
    pose proof (filter_length_le (survives filter_)
                  (stable_sort layer_less (m_requests c))) as Hle.
    pose proof (Permutation_length (stable_sort_perm request_layer (m_requests c)))
      as Hperm.
    change (List.length (stable_sort layer_less (m_requests c))
            = List.length (m_requests c)) in Hperm.
    lia.
Qed.


(** ** Counting requests and obstack objects *)

(** The call is a [draw_surface] whose surface the clip test discards. *)
Definition culls (context : DrawingContext) (cmd : DrawCommand) : bool :=
  match cmd with
  | DrawSurface (Some s) position _ _ _ _
  | DrawSurfaceDefault (Some s) position _ =>
      clipped (get_cliprect context) position s
  | _ => false
  end.

Lemma draw_kept_or_culled (cmd : DrawCommand) (c c' : Canvas) :
  draw cmd c = Done c' ->
  m_context c' = m_context c
  /\ if culls (m_context c) cmd
     then m_requests c' = m_requests c
          /\ obst_next (m_obst c') = N.succ (obst_next (m_obst c))
     else exists i,
          m_requests c' = m_requests c ++ [i]
          /\ request_layer i = command_layer cmd
          /\ obst_next (m_obst c') = N.succ (N.succ (obst_next (m_obst c))).
Proof.
  destruct cmd as [[s|] position ? ? ? ? | [s|] position ? | [s|] ? ? ? | | | | | | | | | ];
    cbn [draw culls]; try discriminate;
    unfold draw_surface_default, draw_surface, draw_surface_part,
      draw_center_text, draw_text, draw_gradient, draw_filled_rect_rect,
      draw_filled_rect, draw_filled_rect_radius, draw_inverse_ellipse,
      draw_line, draw_triangle, enqueue; cbn;
    try (destruct (clipped (get_cliprect (m_context c)) position s));
    intros E; inversion E; subst; clear E; cbn;
    (split; [reflexivity|]);
    try (split; reflexivity);
    eexists; repeat split.
Qed.

(** Property X14: after a sequence of draw calls the layers in the
    buffer are the layers that were there followed by the layers of the
    calls, in call order, leaving out the [draw_surface] calls the clip
    test discarded; the obstack has handed out one object per call and one
    more per request pushed. *)
Theorem run_draws_layers_in_call_order (cmds : list DrawCommand) (c c' : Canvas) :
  run_draws cmds c = Done c' ->
  let kept := filter (fun cmd => negb (culls (m_context c) cmd)) cmds in
  map request_layer (m_requests c')
  = map request_layer (m_requests c) ++ map command_layer kept
  /\ List.length (m_requests c')
     = (List.length (m_requests c) + List.length kept)%nat
  /\ obst_next (m_obst c')
     = (obst_next (m_obst c) + N.of_nat (List.length cmds)
        + N.of_nat (List.length kept))%N.
Proof.
  revert c. induction cmds as [|cmd cmds IH]; intros c; cbn [run_draws].
  - intros E; inversion E; subst. cbn. rewrite app_nil_r.
    repeat split; lia.
  - destruct (draw cmd c) as [c1|] eqn:E1; [|discriminate].
    intros E. cbv zeta.
    destruct (draw_kept_or_culled cmd c E1) as [Hc1 Hk].
    specialize (IH c1 E). cbn zeta in IH. rewrite Hc1 in IH.
    destruct IH as (IH1 & IH2 & IH3).
    cbn [filter]. destruct (culls (m_context c) cmd); cbn [negb].
    + destruct Hk as [Hr Ho]. rewrite Hr in IH1, IH2. rewrite Ho in IH3.
      repeat split; [exact IH1 | exact IH2 |].
      rewrite IH3. cbn [List.length]. lia.
    + destruct Hk as (i & Hr & Hl & Ho). rewrite Hr in IH1, IH2. rewrite Ho in IH3.
      rewrite map_app in IH1. cbn [map] in IH1. rewrite <- app_assoc in IH1.
      rewrite length_app in IH2. cbn [List.length] in *.
      repeat split.
      * rewrite IH1. cbn [map app]. now rewrite Hl.
      * lia.
      * rewrite IH3. lia.
Qed.

(** ** Positions of the calls and of the payloads *)

(** The position arguments of a call, in the coordinates of the caller;
    [draw_center_text] moves its position by half the context's width
    before it passes it on. *)
Definition command_positions (context : DrawingContext) (cmd : DrawCommand)
  : list Vector :=
  match cmd with
  | DrawSurface _ position _ _ _ _ | DrawSurfaceDefault _ position _
  | DrawText _ _ position _ _ _ => [position]
  | DrawSurfacePart _ _ dstrect_ _ => [p1 dstrect_]
  | DrawCenterText _ _ position _ _ =>
      [mkVector (fadd (x position) (fdiv (of_int (context_width context)) two))
                (y position)]
  | DrawGradient _ _ _ _ _ => []
  | DrawFilledRect topleft _ _ _ => [topleft]
  | DrawFilledRectRect rect _ _ | DrawFilledRectRadius rect _ _ _ => [p1 rect]
  | DrawInverseEllipse pos _ _ _ => [pos]
  | DrawLine pos1_ pos2_ _ _ => [pos1_; pos2_]
  | DrawTriangle pos1_ pos2_ pos3_ _ _ => [pos1_; pos2_; pos3_]
  end.

(** The positions a payload gives to the backend. *)
Definition payload_positions (d : DrawingRequestData) : list Vector :=
  match d with
  | TextureData t => [p1 (dstrect t)]
  | TextData t => [text_pos t]
  | GradientData _ => []
  | FillRectData r => [fillrect_pos r]
  | InverseEllipseData r => [ellipse_pos r]
  | LineData r => [line_pos r; dest_pos r]
  | TriangleData r => [pos1 r; pos2 r; pos3 r]
  end.

Definition is_surface_part (cmd : DrawCommand) : bool :=
  match cmd with DrawSurfacePart _ _ _ _ => true | _ => false end.

(** Property X15: for every draw call other than [draw_surface_part]
    that pushes a request, the positions in the payload are the position
    arguments of the call, each passed through [apply_translate] once, in
    the order of the arguments. *)
Theorem draw_translates_positions (cmd : DrawCommand) (c c' : Canvas)
    (i : Ptr DrawingRequest) (d : Ptr DrawingRequestData) :
  is_surface_part cmd = false ->
  draw cmd c = Done c' ->
  m_requests c' = m_requests c ++ [i] ->
  request_data (deref i) = Some d ->
  payload_positions (deref d)
  = map (apply_translate c) (command_positions (m_context c) cmd).
Proof.
  intros Hp Hd Hr Hdata.
  destruct cmd as [[s|] position ? ? ? ? | [s|] position ? | [s|] ? ? ? | | | | | | | | | ];
    try discriminate; cbn [draw] in Hd;
    unfold draw_surface_default, draw_surface,
      draw_center_text, draw_text, draw_gradient, draw_filled_rect_rect,
      draw_filled_rect, draw_filled_rect_radius, draw_inverse_ellipse,
      draw_line, draw_triangle, enqueue in Hd; cbn in Hd;
    try (destruct (clipped (get_cliprect (m_context c)) position s));
    inversion Hd; subst; clear Hd; cbn in Hr;
    try (rewrite <- (app_nil_r (m_requests c)) in Hr at 1;
         apply app_inv_head in Hr; discriminate);
    apply app_inv_head in Hr; inversion Hr; subst; clear Hr;
    cbn in Hdata; inversion Hdata; subst; reflexivity.
Qed.

End CanvasOps.

(** ** Concrete runs

    The theorems above hold for every value of the constants of the
    missing headers.  The runs below fix them: threshold layer 450,
    horizontal-flip bit 2, a default-constructed request with angle 0 and
    opaque white color, and a default blend. *)

Definition sample_lightmap_layer : Z := 450.
Definition sample_horizontal_flip : DrawingEffect := 2.
Definition sample_blend : Blend := mkBlend 770 771.
Definition sample_request_init : DrawingRequest :=
  {| type := TEXTURE; layer := 0; drawing_effect := 0; request_alpha := zero;
     color := Color_rgb one one one; blend := sample_blend; angle := zero;
     request_data := None |}.

(** A context with the identity transform, alpha 1/2, a 640x480 clip
    rectangle at the origin and the viewport's top-left corner at (8, 16). *)
Definition sample_context : DrawingContext :=
  {| transform := {| apply := fun v => v;
                     transform_drawing_effect := 0;
                     transform_alpha := half |};
     get_cliprect := Rectf_of_coords zero zero (of_int 640) (of_int 480);
     get_viewport := mkRect 8 16 648 496;
     context_width := 640 |}.

Definition sample_canvas : Canvas := Canvas_new NORMAL sample_context (mkObstack 0%N).

Definition vec (a b : Z) : Vector := mkVector (of_int a) (of_int b).
Definition white : Color := Color_rgb one one one.
Definition sample_surface : Surface := mkSurface 32 32 false 7%N.

Definition or_else (o : outcome Canvas) (c : Canvas) : Canvas :=
  match o with Done c' => c' | AssertionFailed => c end.

(** A filled rectangle at layer 10, a texture at layer 5, then a line at
    layer 10. *)
Definition sample_scene : Canvas :=
  let c1 := draw_filled_rect sample_request_init (vec 0 0) (vec 8 8) white 10
              sample_canvas in
  let c2 := or_else (draw_surface sample_horizontal_flip (Some sample_surface)
                       (vec 16 16) zero white sample_blend 5 c1) c1 in
  draw_line sample_request_init (vec 0 0) (vec 9 9) white 10 c2.

Example sample_scene_insertion_order :
  map (fun i => (type (deref i), layer (deref i))) (m_requests sample_scene)
  = [(FILLRECT, 10); (TEXTURE, 5); (LINE, 10)].
Proof. vm_compute. reflexivity. Qed.

Example sample_scene_dispatch_order :
  map (fun i => (type (deref i), layer (deref i)))
      (dispatched (snd (render sample_lightmap_layer sample_scene NoFilter)))
  = [(TEXTURE, 5); (FILLRECT, 10); (LINE, 10)].
Proof. vm_compute. reflexivity. Qed.

Lemma render_dispatch_order_witness :
  forallb dispatchable
    (filter (survives sample_lightmap_layer NoFilter) (m_requests sample_scene)) = true
  /\ dispatched (snd (render sample_lightmap_layer sample_scene NoFilter))
     = stable_sort layer_less
         (filter (survives sample_lightmap_layer NoFilter) (m_requests sample_scene)).
Proof.
  assert (H : forallb dispatchable
    (filter (survives sample_lightmap_layer NoFilter) (m_requests sample_scene)) = true)
    by (vm_compute; reflexivity).
  split; [exact H|].
  exact (proj1 (proj2 (proj2 (proj2
           (render_dispatch_order sample_lightmap_layer sample_scene NoFilter)) H))).
Defined.

(** Three lines, at the layers 449, 450 and 451. *)
Definition sample_layers : Canvas :=
  draw_line sample_request_init (vec 0 0) (vec 1 1) white 451
    (draw_line sample_request_init (vec 0 0) (vec 1 1) white 450
       (draw_line sample_request_init (vec 0 0) (vec 1 1) white 449 sample_canvas)).

Example sample_layers_partition :
  map request_layer (dispatched (snd (render sample_lightmap_layer sample_layers BELOW_LIGHTMAP)))
  = [449]
  /\ map request_layer (dispatched (snd (render sample_lightmap_layer sample_layers ABOVE_LIGHTMAP)))
     = [451]
  /\ map request_layer (dispatched (snd (render sample_lightmap_layer sample_layers NoFilter)))
     = [449; 450; 451].
Proof. vm_compute. repeat split. Qed.

Lemma render_filter_partition_witness :
  forallb dispatchable (m_requests sample_layers) = true
  /\ dispatched (snd (render sample_lightmap_layer sample_layers BELOW_LIGHTMAP))
     = filter (fun i => request_layer i <? sample_lightmap_layer)
         (stable_sort layer_less (m_requests sample_layers)).
Proof.
  assert (H : forallb dispatchable (m_requests sample_layers) = true)
    by (vm_compute; reflexivity).
  split; [exact H|].
  exact (proj1 (@render_filter_partition sample_lightmap_layer sample_layers H)).
Defined.

(** A light query buffered on a canvas whose target is not the lightmap. *)
Definition sample_get_light : Ptr DrawingRequest :=
  mkPtr 0%N {| type := GETLIGHT; layer := 450; drawing_effect := 0;
             request_alpha := one; color := white; blend := sample_blend;
             angle := zero; request_data := None |}.

Definition sample_light_canvas : Canvas :=
  mkCanvas NORMAL sample_context (mkObstack 1%N) [sample_get_light].

Lemma render_get_light_witness :
  In (sample_get_light, lightmap_get_light (deref sample_get_light))
     (log_of (snd (render sample_lightmap_layer sample_light_canvas NoFilter))).
Proof.
  apply (proj2 (render_get_light sample_lightmap_layer sample_light_canvas NoFilter)).
  - vm_compute; reflexivity.
  - left; reflexivity.
  - reflexivity.
  - reflexivity.
Defined.

(** The texture payloads of the buffered requests. *)
Definition texture_payloads (c : Canvas) : list TextureRequest :=
  flat_map (fun i => match request_data (deref i) with
                     | Some {| deref := TextureData d |} => [d]
                     | _ => []
                     end) (m_requests c).

(** What [draw_surface] stores when the surface is kept: the source
    rectangle is the whole surface, untranslated, and the destination
    rectangle starts at the translated position. *)
Lemma draw_surface_payload (flip : DrawingEffect) (s : Surface) (position : Vector)
    (angle_ : float) (color_ : Color) (blend_ : Blend) (layer_ : Z) (c : Canvas) :
  clipped (get_cliprect (m_context c)) position s = false ->
  texture_payloads (or_else (draw_surface flip (Some s) position angle_ color_ blend_
                               layer_ c) c)
  = texture_payloads c
    ++ [{| srcrect := Rectf_of_coords zero zero (of_int (surface_width s))
                                      (of_int (surface_height s));
           dstrect := Rectf_of_pos_size (apply_translate c position)
                        (Sizef_of_Size (mkSize (surface_width s) (surface_height s)));
           texture := get_texture s |}].
Proof.
  intros H. unfold draw_surface, texture_payloads. cbn. rewrite H. cbn.
  now rewrite flat_map_app.
Qed.

Definition sample_srcrect : Rectf :=
  Rectf_of_coords zero zero (of_int 16) (of_int 16).
Definition sample_dstrect : Rectf :=
  Rectf_of_coords (of_int 32) (of_int 32) (of_int 48) (of_int 48).

(** Claim C2, at the source rectangle (0,0)-(16,16) and the destination
    rectangle (32,32)-(48,48) with the viewport's corner at (8,16):
    [draw_surface_part] stores the destination rectangle untranslated,
    at (32,32) where [apply_translate] gives (40,48), and stores as source
    rectangle the translated destination corner with the source size,
    (40,48)-(56,64), not the source rectangle it was given. *)
Theorem draw_surface_part_swaps_rectangles :
  (exists c',
      draw_surface_part sample_horizontal_flip sample_request_init
        (Some sample_surface) sample_srcrect sample_dstrect 0 sample_canvas = Done c'
      /\ map (fun d => (srcrect d, dstrect d)) (texture_payloads c')
         = [(Rectf_of_coords (of_int 40) (of_int 48) (of_int 56) (of_int 64),
             sample_dstrect)])
  /\ apply_translate sample_canvas (p1 sample_dstrect) = vec 40 48
  /\ p1 sample_dstrect <> apply_translate sample_canvas (p1 sample_dstrect)
  /\ Rectf_of_coords (of_int 40) (of_int 48) (of_int 56) (of_int 64) <> sample_srcrect.
Proof.
  split; [eexists; split; [reflexivity | vm_compute; reflexivity]|].
  split; [vm_compute; reflexivity|].
  split; vm_compute; discriminate.
Qed.

Lemma draw_surface_cull_witness :
  (exists c',
      draw_surface sample_horizontal_flip (Some sample_surface) (vec (-100) 0)
        zero white sample_blend 0 sample_canvas = Done c'
      /\ m_requests c' = m_requests sample_canvas)
  /\ (exists i c',
      draw_surface sample_horizontal_flip (Some sample_surface) (vec 639 479)
        zero white sample_blend 0 sample_canvas = Done c'
      /\ m_requests c' = m_requests sample_canvas ++ [i]
      /\ type (deref i) = TEXTURE /\ layer (deref i) = 0).
Proof.
  split.
  - apply (proj1 (draw_surface_cull sample_horizontal_flip sample_request_init
                    sample_surface (vec (-100) 0) zero white sample_blend 0
                    sample_canvas)).
    vm_compute; reflexivity.
  - apply (proj1 (proj2 (draw_surface_cull sample_horizontal_flip sample_request_init
                    sample_surface (vec 639 479) zero white sample_blend 0
                    sample_canvas))).
    vm_compute; reflexivity.
Defined.

(** A destination rectangle far outside the 640x480 clip rectangle. *)
Definition sample_far_dstrect : Rectf :=
  Rectf_of_coords (of_int 1000) (of_int 1000) (of_int 1016) (of_int 1016).

(** Claim C4 as stated fails for [draw_surface_part]: the destination
    rectangle (1000,1000)-(1016,1016) lies strictly outside the clip
    rectangle (0,0)-(640,480), and one request is pushed on the empty
    buffer all the same. *)
Lemma draw_surface_part_not_culled :
  rectf_outside sample_far_dstrect (get_cliprect (m_context sample_canvas)) = true
  /\ rectf_overlaps sample_far_dstrect (get_cliprect (m_context sample_canvas)) = false
  /\ m_requests sample_canvas = []
  /\ exists c',
       draw_surface_part sample_horizontal_flip sample_request_init
         (Some sample_surface) sample_srcrect sample_far_dstrect 0 sample_canvas = Done c'
       /\ List.length (m_requests c') = 1%nat.
Proof.
  split; [vm_compute; reflexivity|].
  split; [vm_compute; reflexivity|].
  split; [reflexivity|].
  eexists; split; reflexivity.
Qed.

Definition half_transparent_white : Color := mkColor one one one half.

(** Claim C5 as stated fails for the request's own alpha: with a context
    alpha of 1/2 and a color alpha of 1/2 the product is 1/4, and the
    requests pushed by [draw_filled_rect] and [draw_line] have alpha 1/2;
    the product is the alpha of the payload's color. *)
Lemma request_alpha_not_composed :
  fmul (context_alpha sample_canvas) (alpha half_transparent_white) = fmul half half
  /\ map (fun i => request_alpha (deref i))
       (m_requests (draw_filled_rect sample_request_init (vec 0 0) (vec 8 8)
                      half_transparent_white 0 sample_canvas))
     = [half]
  /\ map (fun i => request_alpha (deref i))
       (m_requests (draw_line sample_request_init (vec 0 0) (vec 8 8)
                      half_transparent_white 0 sample_canvas))
     = [half]
  /\ half <> fmul half half
  /\ map (fun i => option_map (fun d => option_map alpha (shape_color (deref d)))
                     (request_data (deref i)))
       (m_requests (draw_filled_rect sample_request_init (vec 0 0) (vec 8 8)
                      half_transparent_white 0 sample_canvas))
     = [Some (Some (fmul half half))].
Proof.
  split; [reflexivity|].
  split; [reflexivity|].
  split; [reflexivity|].
  split; [vm_compute; discriminate | vm_compute; reflexivity].
Qed.

(** The buffer of a scene built by draw calls holds distinct obstack
    objects, so [clear] destroys each once. *)
Example sample_scene_cleared :
  map destroyed (snd (clear sample_scene)) = [1; 0; 3; 2; 5; 4]%N
  /\ m_requests (fst (clear sample_scene)) = []
  /\ snd (clear (fst (clear sample_scene))) = [].
Proof. vm_compute. repeat split. Qed.

Lemma sample_scene_allocated : allocated sample_scene.
Proof.
  unfold sample_scene.
  apply enqueue_allocated.
  apply draw_surface_allocated
    with (c := draw_filled_rect sample_request_init (vec 0 0) (vec 8 8) white 10
                 sample_canvas)
         (surface := Some sample_surface) (position := vec 16 16) (angle_ := zero)
         (color_ := white) (blend_ := sample_blend) (layer_ := 5)
         (HORIZONTAL_FLIP := sample_horizontal_flip).
  - apply enqueue_allocated. apply Canvas_new_allocated.
  - reflexivity.
Defined.

Lemma clear_idempotent_witness :
  NoDup (map destroyed (snd (clear sample_scene)
                          ++ snd (clear (fst (clear sample_scene))))).
Proof.
  exact (proj1 (proj2 (proj2 (proj2 (proj2 (clear_idempotent sample_scene)))))
           sample_scene_allocated).
Defined.

(** The clip test of [draw_surface] reads the position before
    [apply_translate]: with the viewport's corner at (8,16), a 32x32
    surface at (-35,0) is discarded although, moved by the viewport
    offset, it would reach into the clip rectangle. *)
Example draw_surface_clip_test_untranslated :
  rectf_outside (surface_rect (vec (-35) 0) sample_surface)
    (get_cliprect (m_context sample_canvas)) = true
  /\ rectf_overlaps
       (surface_rect (apply_translate sample_canvas (vec (-35) 0)) sample_surface)
       (get_cliprect (m_context sample_canvas)) = true
  /\ exists c',
       draw_surface sample_horizontal_flip (Some sample_surface) (vec (-35) 0)
         zero white sample_blend 0 sample_canvas = Done c'
       /\ m_requests c' = [].
Proof.
  split; [vm_compute; reflexivity|].
  split; [vm_compute; reflexivity|].
  eexists; split; reflexivity.
Qed.

(** ** Concrete runs of call sequences *)

(** The calls that build [sample_scene]. *)
Definition sample_commands : list DrawCommand :=
  [DrawFilledRect (vec 0 0) (vec 8 8) white 10;
   DrawSurface (Some sample_surface) (vec 16 16) zero white sample_blend 5;
   DrawLine (vec 0 0) (vec 9 9) white 10].

Definition sample_run_draws : list DrawCommand -> Canvas -> outcome Canvas :=
  run_draws sample_horizontal_flip sample_request_init sample_blend.

Example sample_commands_scene :
  sample_run_draws sample_commands sample_canvas = Done sample_scene.
Proof. reflexivity. Qed.

Lemma run_draws_append_only_witness :
  exists added,
    m_requests sample_scene = m_requests sample_canvas ++ added
    /\ (List.length added <= List.length sample_commands)%nat.
Proof.
  destruct (@run_draws_append_only sample_horizontal_flip sample_request_init
              sample_blend sample_commands sample_canvas sample_scene eq_refl)
    as (_ & _ & _ & added & H1 & H2 & _).
  exists added. split; assumption.
Defined.

Lemma render_built_canvas_witness :
  forallb well_tagged (m_requests sample_scene) = true
  /\ snd (snd (render sample_lightmap_layer sample_scene NoFilter))
     <> inr NotATextRequest.
Proof.
  destruct (@render_built_canvas sample_lightmap_layer sample_horizontal_flip
              sample_request_init sample_blend sample_commands NORMAL
              sample_context (mkObstack 0%N) sample_scene NoFilter eq_refl)
    as (H1 & H2 & _).
  split; assumption.
Defined.

(** A flipped surface drawn in part on the empty sample canvas. *)
Definition sample_flipped_surface : Surface := mkSurface 32 32 true 7%N.
Definition sample_part_command : DrawCommand :=
  DrawSurfacePart (Some sample_flipped_surface) sample_srcrect sample_dstrect 0.
Definition sample_part_canvas : Canvas :=
  or_else (draw sample_horizontal_flip sample_request_init sample_blend
             sample_part_command sample_canvas) sample_canvas.
Definition sample_part_request : Ptr DrawingRequest :=
  hd sample_get_light (m_requests sample_part_canvas).

Lemma texture_effect_toggles_flip_witness :
  type (deref sample_part_request) = TEXTURE
  /\ Z.lxor (drawing_effect (deref sample_part_request))
       (effect_from_surface sample_horizontal_flip sample_flipped_surface)
     = context_effect sample_canvas.
Proof.
  destruct (@texture_effect_toggles_flip sample_horizontal_flip sample_request_init
              sample_blend sample_part_command sample_flipped_surface sample_canvas
              sample_part_canvas sample_part_request eq_refl eq_refl eq_refl)
    as (H1 & _ & _ & H2).
  split; assumption.
Defined.

Example sample_part_effect :
  drawing_effect (deref sample_part_request) = 2.
Proof. reflexivity. Qed.

(** A frame with a discarded surface, two passes and a [clear] in the
    middle. *)
Definition sample_life : list Command :=
  [Draw (DrawFilledRect (vec 0 0) (vec 8 8) white 10);
   Draw (DrawSurface (Some sample_surface) (vec (-100) 0) zero white sample_blend 5);
   Draw (DrawText (Some 3%N) "score" (vec 4 4) ALIGN_LEFT 500 white);
   Render BELOW_LIGHTMAP;
   Render ABOVE_LIGHTMAP;
   Clear;
   Draw (DrawLine (vec 0 0) (vec 9 9) white 10);
   Render NoFilter].

Lemma canvas_life_destroys_once_witness :
  exists c log,
    run sample_lightmap_layer sample_horizontal_flip sample_request_init sample_blend
      sample_life (sample_canvas, []) = Some (c, log)
    /\ NoDup (map destroyed (log ++ Canvas_destroy c)).
Proof.
  destruct (run sample_lightmap_layer sample_horizontal_flip sample_request_init
              sample_blend sample_life (sample_canvas, [])) as [[c log]|] eqn:E;
    [|vm_compute in E; discriminate].
  exists c, log. split; [reflexivity|].
  exact (proj1 (@canvas_life_destroys_once sample_lightmap_layer sample_horizontal_flip
                  sample_request_init sample_blend sample_life NORMAL sample_context
                  (mkObstack 0%N) c log E)).
Defined.

Example sample_life_destroyed :
  option_map (fun st => map destroyed (snd st ++ Canvas_destroy (fst st)))
    (run sample_lightmap_layer sample_horizontal_flip sample_request_init sample_blend
       sample_life (sample_canvas, []))
  = Some [1; 0; 4; 3; 6; 5]%N.
Proof. vm_compute. reflexivity. Qed.

Lemma culled_surface_takes_obstack_witness :
  exists c',
    draw_surface sample_horizontal_flip (Some sample_surface) (vec (-100) 0)
      zero white sample_blend 0 sample_canvas = Done c'
    /\ m_requests c' = m_requests sample_canvas
    /\ obst_next (m_obst c') = N.succ (obst_next (m_obst sample_canvas)).
Proof.
  destruct (@culled_surface_takes_obstack sample_horizontal_flip sample_surface
              (vec (-100) 0) zero white sample_blend 0 sample_canvas)
    as (c' & H1 & H2 & H3 & _).
  - vm_compute; reflexivity.
  - apply Canvas_new_allocated.
  - exists c'. repeat split; assumption.
Defined.

Lemma intermediate_render_harmless_witness :
  exists c' c'',
    sample_run_draws sample_commands sample_layers = Done c'
    /\ sample_run_draws sample_commands
         (fst (render sample_lightmap_layer sample_layers BELOW_LIGHTMAP)) = Done c''
    /\ render sample_lightmap_layer c'' NoFilter
       = render sample_lightmap_layer c' NoFilter.
Proof.
  destruct (sample_run_draws sample_commands sample_layers) as [c'|] eqn:E;
    [|vm_compute in E; discriminate].
  destruct (@intermediate_render_harmless sample_lightmap_layer sample_horizontal_flip
              sample_request_init sample_blend sample_commands sample_layers c'
              BELOW_LIGHTMAP NoFilter E) as (c'' & H1 & H2).
  exists c', c''. repeat split; assumption.
Defined.

Lemma render_passes_split_witness :
  dispatched (snd (render sample_lightmap_layer sample_layers NoFilter))
  = dispatched (snd (render sample_lightmap_layer sample_layers BELOW_LIGHTMAP))
    ++ filter (fun i => request_layer i =? sample_lightmap_layer)
         (stable_sort layer_less (m_requests sample_layers))
    ++ dispatched (snd (render sample_lightmap_layer sample_layers ABOVE_LIGHTMAP)).
Proof.
  apply (proj1 (@render_passes_split sample_lightmap_layer sample_layers
                  ltac:(vm_compute; reflexivity))).
Defined.

(** A line at layer 1, a text without a font at layer 5, a line at
    layer 9. *)
Definition sample_faulty : Canvas :=
  draw_line sample_request_init (vec 0 0) (vec 1 1) white 9
    (draw_text sample_request_init None "lost" (vec 0 0) ALIGN_LEFT 5 white
       (draw_line sample_request_init (vec 0 0) (vec 1 1) white 1 sample_canvas)).

Lemma render_stops_at_fault_witness :
  map request_layer (dispatched (snd (render sample_lightmap_layer sample_faulty NoFilter)))
  = [1]
  /\ completed (snd (render sample_lightmap_layer sample_faulty NoFilter)) = false.
Proof.
  destruct (@render_stops_at_fault sample_lightmap_layer sample_faulty NoFilter
              (firstn 1 (m_requests sample_faulty))
              (skipn 2 (m_requests sample_faulty))
              (nth 1 (m_requests sample_faulty) sample_get_light))
    as [H1 H2].
  - vm_compute; reflexivity.
  - reflexivity.
  - reflexivity.
  - rewrite H1. split; [reflexivity | exact H2].
Defined.

(** The null font is out of reach of the pass below the threshold when
    the text lies above it. *)
Example sample_fault_filtered_out :
  completed (snd (render 3 sample_faulty BELOW_LIGHTMAP)) = true
  /\ map request_layer (dispatched (snd (render 3 sample_faulty BELOW_LIGHTMAP))) = [1].
Proof. vm_compute. split; reflexivity. Qed.

Lemma draw_surface_nan_not_culled_witness :
  exists i c',
    draw_surface sample_horizontal_flip (Some sample_surface)
      (mkVector S754_nan S754_nan) zero white sample_blend 0 sample_canvas = Done c'
    /\ m_requests c' = m_requests sample_canvas ++ [i]
    /\ type (deref i) = TEXTURE /\ layer (deref i) = 0.
Proof.
  apply (@draw_surface_nan_not_culled sample_horizontal_flip sample_surface
           (mkVector S754_nan S754_nan) zero white sample_blend 0 sample_canvas).
  left. split; reflexivity.
Defined.

Lemma render_dispatches_once_witness :
  NoDup (dispatched (snd (render sample_lightmap_layer sample_scene NoFilter))).
Proof.
  exact (proj1 (@render_dispatches_once sample_lightmap_layer sample_scene NoFilter
                  sample_scene_allocated)).
Defined.


Lemma run_draws_layers_in_call_order_witness :
  map request_layer (m_requests sample_scene) = [10; 5; 10]
  /\ obst_next (m_obst sample_scene) = 6%N.
Proof.
  destruct (@run_draws_layers_in_call_order sample_horizontal_flip sample_request_init
              sample_blend sample_commands sample_canvas sample_scene eq_refl)
    as (H1 & _ & H2).
  split; [rewrite H1 | rewrite H2]; vm_compute; reflexivity.
Defined.

Definition sample_triangle_command : DrawCommand :=
  DrawTriangle (vec 0 0) (vec 4 0) (vec 0 4) white 7.
Definition sample_triangle_canvas : Canvas :=
  or_else (draw sample_horizontal_flip sample_request_init sample_blend
             sample_triangle_command sample_canvas) sample_canvas.

Lemma draw_translates_positions_witness :
  flat_map payload_positions (payloads sample_triangle_canvas)
  = [vec 8 16; vec 12 16; vec 8 20].
Proof.
  pose proof (@draw_translates_positions sample_horizontal_flip sample_request_init
                sample_blend sample_triangle_command sample_canvas
                sample_triangle_canvas
                (hd sample_get_light (m_requests sample_triangle_canvas))
                (mkPtr 1%N (hd (GradientData (mkGradientRequest white white 0 sample_srcrect))
                              (payloads sample_triangle_canvas)))
                eq_refl eq_refl eq_refl eq_refl) as H.
  cbn [deref] in H.
  change (payloads sample_triangle_canvas)
    with [hd (GradientData (mkGradientRequest white white 0 sample_srcrect))
            (payloads sample_triangle_canvas)].
  cbn [flat_map]. rewrite app_nil_r, H. vm_compute. reflexivity.
Defined.

(** ** [object/particle_zone.hpp]: the inline members of [ParticleZone] *)

Module ParticleZoneModel.

Inductive ParticleZoneType := Spawn | Life | LifeClear | Killer | Destroyer.

(** The members the inline functions read and write; [m_bbox] is the
    bounding box of the collision object [m_col] of the base class. *)
Record ParticleZone := mkParticleZone {
  m_bbox : Rectf;
  m_enabled : bool;
  m_particle_name : string;
  m_type : ParticleZoneType
}.

Definition has_variable_size (z : ParticleZone) : bool := true.
Definition get_class (z : ParticleZone) : string := "particle-zone".
Definition get_rect (z : ParticleZone) : Rectf := m_bbox z.

Definition set_enabled (enabled : bool) (z : ParticleZone) : ParticleZone :=
  mkParticleZone (m_bbox z) enabled (m_particle_name z) (m_type z).
Definition get_enabled (z : ParticleZone) : bool := m_enabled z.

Definition set_particle_name (particle_name : string) (z : ParticleZone) : ParticleZone :=
  mkParticleZone (m_bbox z) (m_enabled z) particle_name (m_type z).
Definition get_particle_name (z : ParticleZone) : string := m_particle_name z.

Definition current_x (z : ParticleZone) : float := get_left (m_bbox z).
Definition current_y (z : ParticleZone) : float := get_top (m_bbox z).

Definition set_type (type_ : ParticleZoneType) (z : ParticleZone) : ParticleZone :=
  mkParticleZone (m_bbox z) (m_enabled z) (m_particle_name z) type_.
Definition get_type (z : ParticleZone) : ParticleZoneType := m_type z.

(** A scripted update: any of the three setters. *)
Inductive Update :=
| SetEnabled (enabled : bool)
| SetParticleName (particle_name : string)
| SetType (type_ : ParticleZoneType).

Definition update (u : Update) (z : ParticleZone) : ParticleZone :=
  match u with
  | SetEnabled enabled => set_enabled enabled z
  | SetParticleName particle_name => set_particle_name particle_name z
  | SetType type_ => set_type type_ z
  end.

Definition updates (us : list Update) (z : ParticleZone) : ParticleZone :=
  fold_left (fun z u => update u z) us z.

(** The last value a sequence of updates gives to a member, if any. *)
Fixpoint last_enabled (us : list Update) (d : bool) : bool :=
  match us with
  | [] => d
  | SetEnabled b :: us' => last_enabled us' b
  | _ :: us' => last_enabled us' d
  end.

Fixpoint last_particle_name (us : list Update) (d : string) : string :=
  match us with
  | [] => d
  | SetParticleName n :: us' => last_particle_name us' n
  | _ :: us' => last_particle_name us' d
  end.

Fixpoint last_type (us : list Update) (d : ParticleZoneType) : ParticleZoneType :=
  match us with
  | [] => d
  | SetType t :: us' => last_type us' t
  | _ :: us' => last_type us' d
  end.

(** Property X16: after any sequence of calls of [set_enabled],
    [set_particle_name] and [set_type], each getter returns the value of
    the last call of its own setter (the initial value when there was
    none), and the rectangle of the zone, hence [current_x] and
    [current_y], is where it was. *)
Theorem setters_keep_apart (us : list Update) (z : ParticleZone) :
  get_enabled (updates us z) = last_enabled us (get_enabled z)
  /\ get_particle_name (updates us z) = last_particle_name us (get_particle_name z)
  /\ get_type (updates us z) = last_type us (get_type z)
  /\ get_rect (updates us z) = get_rect z
  /\ current_x (updates us z) = current_x z
  /\ current_y (updates us z) = current_y z.
Proof.
  unfold updates, current_x, current_y. revert z.
  induction us as [|u us IH]; intros z; [repeat split|].
  cbn [fold_left]. destruct (IH (update u z)) as (H1 & H2 & H3 & H4 & H5 & H6).
  rewrite H1, H2, H3, H4, H5, H6.
  destruct u; repeat split.
Qed.

End ParticleZoneModel.
